(** * tv_notifier: event ingestion, date-range queries and weekly rendering

    A shallow embedding of [tv_notifier.py].  The SQLite table [events] is a
    list of rows in insertion (rowid) order; Python [str] values are byte
    strings (UTF-8); [datetime.date] values are year/month/day records with
    the proleptic Gregorian arithmetic of the [datetime] module. *)

From Stdlib Require Import ZArith List String Ascii Bool Lia.
From Stdlib Require Import Permutation Sorted.
Import ListNotations.
Open Scope string_scope.
Open Scope list_scope.
Open Scope Z_scope.

(** ** Python [str] operations the program calls *)

Module PyStr.

Definition nl : string := String "010"%char EmptyString.

(** [s.split(sep)] for a non-empty [sep]: the occurrences of [sep] are found
    left to right without overlap; [skip] counts the bytes of a matched
    separator still to be passed over, [cur] is the piece being read. *)
Fixpoint split_go (sep : string) (skip : nat) (cur s : string) : list string :=
  match s with
  | EmptyString => [cur]
  | String c s' =>
      match skip with
      | S k => split_go sep k cur s'
      | O =>
          if String.prefix sep s
          then cur :: split_go sep (Nat.pred (String.length sep)) EmptyString s'
          else split_go sep O (cur ++ String c EmptyString)%string s'
      end
  end.

Definition split (sep s : string) : list string :=
  split_go sep O EmptyString s.

(** [s.lstrip('0')] *)
Fixpoint lstrip0 (s : string) : string :=
  match s with
  | String c s' => if Ascii.eqb c "0"%char then lstrip0 s' else s
  | EmptyString => EmptyString
  end.

(** [needle in s] *)
Fixpoint contains (needle s : string) : bool :=
  String.prefix needle s
  || match s with
     | EmptyString => false
     | String _ s' => contains needle s'
     end.

(** The decimal digit of [n mod 10], and the inverse reading of a digit. *)
Definition digit_of (n : Z) : ascii := ascii_of_N (Z.to_N (48 + n mod 10)).

Definition digit_val (c : ascii) : option Z :=
  let n := Z.of_N (N_of_ascii c) in
  if (48 <=? n) && (n <=? 57) then Some (n - 48) else None.

(** ["%02d" % n] and ["%04d" % n] for [0 <= n < 100] and [0 <= n < 10000],
    the only values a [date] field takes. *)
Definition fmt02 (n : Z) : string :=
  String (digit_of (n / 10)) (String (digit_of n) EmptyString).

Definition fmt04 (n : Z) : string :=
  String (digit_of (n / 1000)) (String (digit_of (n / 100)) (fmt02 n)).

End PyStr.

(** ** The [datetime.date] operations the program calls *)

Module Calendar.

Record date := mkdate { year : Z; month : Z; day : Z }.

Definition MINYEAR : Z := 1.
Definition MAXYEAR : Z := 9999.
Definition MAXORDINAL : Z := 3652059.

Definition is_leap (y : Z) : bool :=
  (y mod 4 =? 0) && (negb (y mod 100 =? 0) || (y mod 400 =? 0)).

Definition DAYS_IN_MONTH (m : Z) : Z :=
  match m with
  | 1 => 31 | 2 => 28 | 3 => 31 | 4 => 30 | 5 => 31 | 6 => 30
  | 7 => 31 | 8 => 31 | 9 => 30 | 10 => 31 | 11 => 30 | 12 => 31
  | _ => -1
  end.

Definition DAYS_BEFORE_MONTH (m : Z) : Z :=
  match m with
  | 1 => 0 | 2 => 31 | 3 => 59 | 4 => 90 | 5 => 120 | 6 => 151
  | 7 => 181 | 8 => 212 | 9 => 243 | 10 => 273 | 11 => 304 | 12 => 334
  | _ => -1
  end.

Definition days_in_month (y m : Z) : Z :=
  if (m =? 2) && is_leap y then 29 else DAYS_IN_MONTH m.

Definition days_before_year (y : Z) : Z :=
  let y := y - 1 in y * 365 + y / 4 - y / 100 + y / 400.

Definition days_before_month (y m : Z) : Z :=
  DAYS_BEFORE_MONTH m + (if (2 <? m) && is_leap y then 1 else 0).

Definition ymd2ord (y m d : Z) : Z :=
  days_before_year y + days_before_month y m + d.

Definition DI400Y : Z := 146097.
Definition DI100Y : Z := 36524.
Definition DI4Y : Z := 1461.

(** The month and day of the [n]-th day (from 0) of a year: the estimate
    [(n + 50) >> 5] of the month is exact or one too large. *)
Definition month_day (leapyear : bool) (n : Z) : Z * Z :=
  let m := Z.shiftr (n + 50) 5 in
  let preceding :=
    DAYS_BEFORE_MONTH m + (if (2 <? m) && leapyear then 1 else 0) in
  if n <? preceding then
    let m := m - 1 in
    let preceding :=
      preceding - (DAYS_IN_MONTH m + (if (m =? 2) && leapyear then 1 else 0)) in
    (m, n - preceding + 1)
  else (m, n - preceding + 1).

Definition ord2ymd (n : Z) : date :=
  let n := n - 1 in
  let n400 := n / DI400Y in
  let n := n mod DI400Y in
  let n100 := n / DI100Y in
  let n := n mod DI100Y in
  let n4 := n / DI4Y in
  let n := n mod DI4Y in
  let n1 := n / 365 in
  let n := n mod 365 in
  let y := n400 * 400 + 1 + n100 * 100 + n4 * 4 + n1 in
  if (n1 =? 4) || (n100 =? 4) then mkdate (y - 1) 12 31
  else
    let leapyear := (n1 =? 3) && (negb (n4 =? 24) || (n100 =? 3)) in
    let (m, d) := month_day leapyear n in
    mkdate y m d.

(** The field check of the [date] constructor; every [date] object the
    program handles satisfies it. *)
Definition check_date_fields (d : date) : bool :=
  (MINYEAR <=? year d) && (year d <=? MAXYEAR)
  && (1 <=? month d) && (month d <=? 12)
  && (1 <=? day d) && (day d <=? days_in_month (year d) (month d)).

Definition toordinal (d : date) : Z := ymd2ord (year d) (month d) (day d).

(** [d + timedelta(days=k)]: [None] stands for [OverflowError]. *)
Definition add_days (d : date) (k : Z) : option date :=
  let o := toordinal d + k in
  if (0 <? o) && (o <=? MAXORDINAL) then Some (ord2ymd o) else None.

(** Monday is 0, Sunday is 6. *)
Definition weekday (d : date) : Z := (toordinal d + 6) mod 7.

(** Comparison of dates is comparison of (year, month, day) tuples. *)
Definition date_cmp (a b : date) : comparison :=
  match year a ?= year b with
  | Eq => match month a ?= month b with
          | Eq => day a ?= day b
          | c => c
          end
  | c => c
  end.

Definition date_ltb (a b : date) : bool :=
  match date_cmp a b with Lt => true | _ => false end.

Definition date_leb (a b : date) : bool :=
  match date_cmp a b with Gt => false | _ => true end.

Definition date_eqb (a b : date) : bool :=
  match date_cmp a b with Eq => true | _ => false end.

(** What [month_day] has to give for day [n] of a year. *)
Definition month_day_ok (leap : bool) (n : Z) : bool :=
  let (m, d) := month_day leap n in
  (1 <=? m) && (m <=? 12) && (1 <=? d)
  && (d <=? DAYS_IN_MONTH m + (if (m =? 2) && leap then 1 else 0))
  && (DAYS_BEFORE_MONTH m + (if (2 <? m) && leap then 1 else 0) + d =? n + 1).

(** Lexicographic combination of two comparisons. *)
Definition lexc (c1 c2 : comparison) : comparison :=
  match c1 with Eq => c2 | _ => c1 end.

(** [d.isoformat()], that is ["%04d-%02d-%02d" % (year, month, day)]. *)
Definition isoformat (d : date) : string :=
  (PyStr.fmt04 (year d) ++ "-" ++ PyStr.fmt02 (month d) ++ "-"
   ++ PyStr.fmt02 (day d))%string.

Definition digits2 (a b : ascii) : option Z :=
  match PyStr.digit_val a, PyStr.digit_val b with
  | Some x, Some y => Some (10 * x + y)
  | _, _ => None
  end.

Definition digits4 (a b c d : ascii) : option Z :=
  match digits2 a b, digits2 c d with
  | Some x, Some y => Some (100 * x + y)
  | _, _ => None
  end.

(** [date.fromisoformat(s)] on the [YYYY-MM-DD] form, the only form
    [isoformat] writes; [None] stands for [ValueError]. *)
Definition fromisoformat (s : string) : option date :=
  match s with
  | String y1 (String y2 (String y3 (String y4 (String "-"
      (String m1 (String m2 (String "-"
        (String d1 (String d2 EmptyString))))))))) =>
      match digits4 y1 y2 y3 y4, digits2 m1 m2, digits2 d1 d2 with
      | Some y, Some m, Some d =>
          if check_date_fields (mkdate y m d) then Some (mkdate y m d)
          else None
      | _, _, _ => None
      end
  | _ => None
  end.

Definition DAY_NAMES : list string :=
  ["Monday"; "Tuesday"; "Wednesday"; "Thursday"; "Friday"; "Saturday";
   "Sunday"].

Definition MONTH_NAMES : list string :=
  ["January"; "February"; "March"; "April"; "May"; "June"; "July"; "August";
   "September"; "October"; "November"; "December"].

(** [d.strftime("%A, %B %d")] in the C locale. *)
Definition strftime_A_B_d (d : date) : string :=
  (nth (Z.to_nat (weekday d)) DAY_NAMES ""
   ++ ", " ++ nth (Z.to_nat (month d - 1)) MONTH_NAMES ""
   ++ " " ++ PyStr.fmt02 (day d))%string.

End Calendar.

(** ** The [events] table *)

Module Store.

(** One row of [events (uid TEXT PRIMARY KEY, summary TEXT, start_date DATE)].
    The program only ever binds [isoformat] strings to [start_date], which
    SQLite keeps as text. *)
Record row := mkrow { uid : string; summary : string; start_date : string }.

(** The table, rows in insertion order (the order a scan returns them in:
    nothing is ever deleted). *)
Definition store := list row.

Definition has_uid (u : string) (s : store) : bool :=
  existsb (fun r => String.eqb (uid r) u) s.

Definition find_uid (u : string) (s : store) : option row :=
  find (fun r => String.eqb (uid r) u) s.

Definition count_uid (u : string) (s : store) : nat :=
  List.length (filter (fun r => String.eqb (uid r) u) s).

(** [INSERT OR IGNORE INTO events VALUES (?, ?, ?)] committed at once: the
    row is written unless its primary key is already there.  The program
    drops what [execute] returns and never reads the cursor. *)
Definition insert_or_ignore (s : store) (r : row) : store :=
  if has_uid (uid r) s then s else s ++ [r].

(** [SELECT uid, summary FROM events WHERE start_date = ?] *)
Definition select_on (d : string) (s : store) : list row :=
  filter (fun r => String.eqb (start_date r) d) s.

(** [SELECT uid, summary, start_date FROM events
     WHERE start_date BETWEEN ? AND ?]: text values, compared bytewise. *)
Definition select_between (lo hi : string) (s : store) : list row :=
  filter (fun r => String.leb lo (start_date r)
                   && String.leb (start_date r) hi) s.

(** The rows whose date lies in a closed range of dates, by the order of
    dates; the rows stay in table order. *)
Definition dated_between (d1 d2 : Calendar.date) (s : store) : list row :=
  filter (fun r => match Calendar.fromisoformat (start_date r) with
                   | Some d => Calendar.date_leb d1 d && Calendar.date_leb d d2
                   | None => false
                   end) s.

(** A [start_date] as ingestion writes it: the [isoformat] of a date. *)
Definition is_iso_date (t : string) : bool :=
  match Calendar.fromisoformat t with
  | Some d => Calendar.check_date_fields d && String.eqb (Calendar.isoformat d) t
  | None => false
  end.

Definition iso_store (s : store) : bool :=
  forallb (fun r => is_iso_date (start_date r)) s.

End Store.

(** ** [update_schedule] *)

Module Sync.
Import Calendar Store.

(** [event["dtstart"].dt]: a [datetime] (whose [.date()] is kept) or a plain
    [date] (which has no [.date()] method). *)
Inductive dtval :=
| DtDateTime (d : date)
| DtDate (d : date).

(** A [VEVENT] component as [cal.walk("vevent")] yields it; a missing
    property is [None]. *)
Record vevent := mkvevent
  { ev_uid : option string;
    ev_dtstart : option dtval;
    ev_summary : option string }.

(** What the download and [Calendar.from_ical] give. *)
Inductive feed :=
| FetchFailed                     (* requests raises RequestException *)
| Malformed                       (* from_ical raises *)
| Parsed (events : list vevent).

Inductive log_entry :=
| Downloaded
| InsertFailed (u : string)       (* warning, line 72 *)
| Updated
| DownloadError                   (* error, line 77 *)
| UpdateError.                    (* error, line 79 *)

(** Lines 61-63; [None] is an exception that leaves the [for] loop. *)
Definition extract (e : vevent) : option row :=
  match ev_uid e with
  | None => None
  | Some u =>
      match ev_dtstart e with
      | Some (DtDateTime d) =>
          match ev_summary e with
          | None => None
          | Some sm => Some (mkrow u sm (isoformat d))
          end
      | _ => None
      end
  end.

(** The connection of lines 55-74: the table as committed, and the rows
    that statements of the open transaction have written and no commit has
    stored yet. *)
Record connection := mkconn { committed : store; pending : list row }.

(** What a statement on the connection sees. *)
Definition view (c : connection) : store := committed c ++ pending c.

(** [cursor.execute("INSERT OR IGNORE ...")] that returns (line 66). *)
Definition execute (c : connection) (r : row) : connection :=
  if has_uid (uid r) (view c) then c
  else mkconn (committed c) (pending c ++ [r]).

(** [conn.commit()] that returns (line 70). *)
Definition commit (c : connection) : connection := mkconn (view c) [].

(** The transaction is given up: by the storage on some errors, and by
    closing or dropping the connection (line 74), which commits nothing. *)
Definition rollback (c : connection) : connection := mkconn (committed c) [].

(** What the storage medium does to lines 66-70 for one record: both calls
    return; [execute] raises [sqlite3.Error] and the open transaction is as
    it was; [commit] raises (the database is locked) and the transaction
    stays open with the row in it; or a call raises and the transaction is
    rolled back (input/output error, disk full). *)
Inductive outcome :=
| Done
| StatementFails
| CommitFails
| RolledBack.

Definition failed (o : outcome) : bool :=
  match o with Done => false | _ => true end.

(** Lines 65-72 for one record. *)
Definition store_event (o : outcome) (c : connection) (r : row)
    : connection :=
  match o with
  | Done => commit (execute c r)
  | StatementFails => c
  | CommitFails => execute c r
  | RolledBack => rollback c
  end.

(** The [for] loop of lines 60-72.  [medium i] is what the storage medium
    does for the [i]-th component; every failure is logged (line 72) and
    the loop goes on.  The boolean of the result is [false] when an
    exception left the loop. *)
Fixpoint insert_events (medium : nat -> outcome) (i : nat)
    (evs : list vevent) (c : connection) (log : list log_entry)
    : connection * list log_entry * bool :=
  match evs with
  | [] => (c, log, true)
  | e :: rest =>
      match extract e with
      | None => (c, log, false)
      | Some r =>
          insert_events medium (S i) rest (store_event (medium i) c r)
            (if failed (medium i) then log ++ [InsertFailed (uid r)]
             else log)
      end
  end.

(** The table the run leaves and its log.  The connection is opened on the
    table (line 55); what is still pending when it is closed (line 74) or
    dropped is lost. *)
Definition update_schedule (f : feed) (medium : nat -> outcome) (s : store)
    : store * list log_entry :=
  match f with
  | FetchFailed => (s, [DownloadError])
  | Malformed => (s, [Downloaded; UpdateError])
  | Parsed evs =>
      match insert_events medium O evs (mkconn s []) [Downloaded] with
      | (c, log, true) => (committed c, log ++ [Updated])
      | (c, log, false) => (committed c, log ++ [UpdateError])
      end
  end.

Definition no_failure : nat -> outcome := fun _ => Done.

(** Every [dtstart] of the feed is a date the [date] constructor accepts. *)
Definition valid_feed (evs : list vevent) : bool :=
  forallb (fun e => match ev_dtstart e with
                    | Some (DtDateTime d) | Some (DtDate d) => check_date_fields d
                    | None => true
                    end) evs.

(** The records the loop reaches: those before the first component whose
    fields cannot be read. *)
Fixpoint reached (evs : list vevent) : list row :=
  match evs with
  | [] => []
  | e :: rest =>
      match extract e with
      | Some r => r :: reached rest
      | None => []
      end
  end.

(** What the storage medium does on a feed that lacks its [k]-th
    component. *)
Definition skip_at (k : nat) (medium : nat -> outcome) : nat -> outcome :=
  fun i => if (i <? k)%nat then medium i else medium (S i).

(** The medium that fails in the way [o] on the [k]-th component only. *)
Definition fails_at (k : nat) (o : outcome) : nat -> outcome :=
  fun i => if Nat.eqb i k then o else Done.

End Sync.

(** ** [send_notifications] *)

Module Notify.
Import Calendar Store PyStr.

(** Lines 100-106. *)
Definition message_text (summary : string) : string :=
  match split ": " summary with
  | [show_name; episode] =>
      ("Reminder: " ++ show_name ++ nl ++ "🔴 Episode: " ++ episode
       ++ " airs tomorrow!")%string
  | _ => ("Reminder: " ++ summary ++ " airs tomorrow!")%string
  end.

(** The [(uid, text)] of every [bot.send_message] call, in order.  A send
    that raises is caught per message (line 114) and does not change the
    later calls; an overflowing [today + 1 day] leaves through the outer
    handler before any call. *)
Definition send_notifications (today : date) (s : store)
    : list (string * string) :=
  match add_days today 1 with
  | None => []
  | Some tomorrow =>
      map (fun r => (uid r, message_text (summary r)))
          (select_on (isoformat tomorrow) s)
  end.

End Notify.

(** ** [send_weekly_schedule] *)

Module Weekly.
Import Calendar Store PyStr.

(** [weekly_schedule]: a dict from dates to dicts from show titles to lists
    of episode tokens; both dicts keep the order of first insertion. *)
Definition shows := list (string * list string).
Definition schedule := list (date * shows).

(** Lines 177-179. *)
Fixpoint add_show (title episode : string) (sh : shows) : shows :=
  match sh with
  | [] => [(title, [episode])]
  | (t, eps) :: rest =>
      if String.eqb t title then (t, eps ++ [episode]) :: rest
      else (t, eps) :: add_show title episode rest
  end.

(** Lines 175-179. *)
Fixpoint add_day (d : date) (title episode : string) (ws : schedule)
    : schedule :=
  match ws with
  | [] => [(d, [(title, [episode])])]
  | (d', sh) :: rest =>
      if date_eqb d' d then (d', add_show title episode sh) :: rest
      else (d', sh) :: add_day d title episode rest
  end.

(** The variables that outlive the first [for] loop: the dict and [season],
    which is unbound until a record reaches line 171. *)
Record loop_state := mkstate
  { weekly_schedule : schedule; season : option string }.

Definition init_state : loop_state := mkstate [] None.

(** Lines 161-172 of one iteration: the date, title, season and episode of
    a record that reaches line 175, [None] for a record that is skipped (by
    [continue], or by an exception raised in the [try] block: a bad date
    string, or a summary that does not unpack into two names).  [defensive]
    switches the test of line 162; the program runs with [defensive = true]. *)
Definition parse_event (defensive : bool) (today : date) (r : row)
    : option (date * string * string * string) :=
  match fromisoformat (start_date r) with
  | None => None
  | Some start =>
      if defensive && date_ltb start today then None
      else
        match split ": " (summary r) with
        | [title; episode_info] =>
            match split "x" episode_info with
            | [sn; episode] => Some (start, title, sn, episode)
            | _ => None
            end
        | _ => None
        end
  end.

(** One iteration of the loop of lines 159-183. *)
Definition process_event (defensive : bool) (today : date) (st : loop_state)
    (r : row) : loop_state :=
  match parse_event defensive today r with
  | None => st
  | Some (start, title, sn, episode) =>
      mkstate (add_day start title episode (weekly_schedule st)) (Some sn)
  end.

Definition group_events (defensive : bool) (today : date) (events : list row)
    : loop_state :=
  fold_left (process_event defensive today) events init_state.

(** [sorted(weekly_schedule.keys())]: the keys are distinct, so every sort
    gives the same list; insertion sort on the date order. *)
Fixpoint insert_sorted (d : date) (l : list date) : list date :=
  match l with
  | [] => [d]
  | x :: rest =>
      if date_leb d x then d :: l else x :: insert_sorted d rest
  end.

Definition sorted (l : list date) : list date :=
  fold_right insert_sorted [] l.

(** [weekly_schedule[day]] *)
Definition shows_on (day : date) (ws : schedule) : shows :=
  match find (fun p => date_eqb (fst p) day) ws with
  | Some p => snd p
  | None => []
  end.

Definition NOTHING_SCHEDULED : string :=
  "No upcoming shows scheduled for this week.".

Definition ERROR_REPLY : string :=
  "Error processing your request. Please try again later.".

(** Lines 199-201: the header of a show reads the variable [season]. *)
Definition render_show (sn : string) (entry : string * list string)
    : string :=
  ("- " ++ fst entry ++ " (Season " ++ sn ++ ")" ++ nl
   ++ String.concat ""
        (map (fun episode => "  • Episode " ++ lstrip0 episode ++ nl)
             (snd entry)))%string.

(** Lines 196-202. *)
Definition render_day (sn : string) (ws : schedule) (day : date) : string :=
  ("👉 " ++ strftime_A_B_d day ++ ":" ++ nl
   ++ String.concat "" (map (render_show sn) (shows_on day ws))
   ++ nl)%string.

(** Lines 194-202. *)
Definition render (sn : string) (ws : schedule) : string :=
  ("📅 This week's TV schedule (from today to Sunday):" ++ nl ++ nl
   ++ String.concat "" (map (render_day sn ws) (sorted (map fst ws))))%string.

(** Line 135: [today + timedelta(days=(6 - today.weekday()) % 7)]. *)
Definition week_end (today : date) : option date :=
  add_days today ((6 - weekday today) mod 7).

(** Lines 139-146. *)
Definition week_events (today sunday : date) (s : store) : list row :=
  select_between (isoformat today) (isoformat sunday) s.

(** The text handed to [context.bot.send_message] for the chat. *)
Definition send_weekly_schedule (today : date) (s : store) : string :=
  match week_end today with
  | None => ERROR_REPLY
  | Some sunday =>
      match week_events today sunday s with
      | [] => NOTHING_SCHEDULED
      | events =>
          let st := group_events true today events in
          match weekly_schedule st with
          | [] => NOTHING_SCHEDULED
          | ws =>
              match season st with
              | Some sn => render sn ws
              | None => ERROR_REPLY
              end
          end
      end
  end.

(** Reading the grouped view: the episode tokens filed under a date and a
    title, and the number of tokens filed in all. *)
Definition episodes_of (d : date) (title : string) (ws : schedule)
    : list string :=
  match find (fun p => String.eqb (fst p) title) (shows_on d ws) with
  | Some p => snd p
  | None => []
  end.

Definition show_count (sh : shows) : nat :=
  fold_right (fun p n => (List.length (snd p) + n)%nat) O sh.

Definition episode_count (ws : schedule) : nat :=
  fold_right (fun p n => (show_count (snd p) + n)%nat) O ws.

(** The two tests a summary has to pass (lines 166 and 167-168). *)
Definition two_parts (summary : string) : bool :=
  Nat.eqb (List.length (split ": " summary)) 2.

Definition two_tokens (summary : string) : bool :=
  Nat.eqb (List.length (split "x" (nth 1 (split ": " summary) ""))) 2.

(** Whether the loop files a record in the view. *)
Definition included (defensive : bool) (today : date) (r : row) : bool :=
  match parse_event defensive today r with Some _ => true | None => false end.

(** The season held by the variable [season] when the loop ends. *)
Definition last_season (defensive : bool) (today : date) (events : list row)
    : option string :=
  fold_left (fun acc r =>
               match parse_event defensive today r with
               | Some (_, _, sn, _) => Some sn
               | None => acc
               end) events None.

End Weekly.

(** ** The specification's reading of the summary split *)

Module SpecReading.
Import PyStr.

(** A split made once: the text before the first occurrence of [sep] and
    the whole text after it ([s.split(sep, 1)]). *)
Fixpoint split_once_go (sep cur s : string) : list string :=
  match s with
  | EmptyString => [cur]
  | String c s' =>
      if String.prefix sep s
      then [cur; String.substring (String.length sep)
                   (String.length s - String.length sep) s]
      else split_once_go sep (cur ++ String c EmptyString)%string s'
  end.

Definition split_once (sep s : string) : list string :=
  split_once_go sep EmptyString s.

Definition two_parts_once (summary : string) : bool :=
  Nat.eqb (List.length (split_once ": " summary)) 2.

Definition two_tokens_once (summary : string) : bool :=
  Nat.eqb (List.length (split "x" (nth 1 (split_once ": " summary) ""))) 2.

End SpecReading.

(** ** Stores and feeds of the scenarios *)

Module Examples.
Import Calendar Store Sync PyStr.

Definition scenario : store :=
  [mkrow "1" "Show A: 2x05" "2024-05-10";
   mkrow "2" "Show A: 2x06" "2024-05-10"].

Definition scenario_message : string :=
  ("📅 This week's TV schedule (from today to Sunday):" ++ nl ++ nl
   ++ "👉 Friday, May 10:" ++ nl
   ++ "- Show A (Season 2)" ++ nl
   ++ "  • Episode 5" ++ nl
   ++ "  • Episode 6" ++ nl
   ++ nl)%string.

Definition two_shows : store :=
  [mkrow "1" "Show A: 1x01" "2024-05-10";
   mkrow "2" "Show B: 3x02" "2024-05-10"].

Definition feed3 : list vevent :=
  [mkvevent (Some "1") (Some (DtDateTime (mkdate 2024 5 10)))
            (Some "Show A: 2x05");
   mkvevent (Some "2") (Some (DtDateTime (mkdate 2024 5 10)))
            (Some "Show A: 2x06");
   mkvevent (Some "3") (Some (DtDateTime (mkdate 2024 5 11)))
            (Some "Show B: 1x01")].

End Examples.

(** ** Readings of strings and of the grouped view used in the statements *)

Module Views.
Import Calendar Store PyStr Weekly.

(** [s[n:]] *)
Fixpoint drop (n : nat) (s : string) : string :=
  match n, s with
  | O, _ => s
  | S k, String _ s' => drop k s'
  | S _, EmptyString => EmptyString
  end.

(** ['0' * n] *)
Fixpoint zeros (n : nat) : string :=
  match n with
  | O => EmptyString
  | S k => String "0"%char (zeros k)
  end.

(** The records the grouping loop files, in the order it meets them. *)
Definition parsed (defensive : bool) (today : date) (events : list row)
    : list (date * string * string * string) :=
  flat_map (fun r => match parse_event defensive today r with
                     | Some p => [p]
                     | None => []
                     end) events.

Definition filed_under (d : date) (title : string)
    (p : date * string * string * string) : bool :=
  let '(d', t, _, _) := p in date_eqb d' d && String.eqb t title.

Definition episode_of (p : date * string * string * string) : string :=
  let '(_, _, _, episode) := p in episode.

Definition date_le (a b : date) : Prop := date_leb a b = true.

Definition date_lt (a b : date) : Prop := date_ltb a b = true.

(** A dict of shows as the loop builds it: distinct titles, at least one
    title, at least one episode under each. *)
Definition shows_wf (sh : shows) : Prop :=
  NoDup (map fst sh) /\ sh <> [] /\ Forall (fun q => snd q <> []) sh.

(** A grouped view as the loop builds it: distinct dates, each with a
    well-formed dict of shows. *)
Definition schedule_wf (ws : schedule) : Prop :=
  NoDup (map fst ws) /\ Forall (fun p => shows_wf (snd p)) ws.

End Views.

(** * Facts about the calendar arithmetic *)

Module CalendarFacts.
Import Calendar PyStr.

Ltac month_cases m H :=
  let E := fresh "E" in
  assert (E : m = 1 \/ m = 2 \/ m = 3 \/ m = 4 \/ m = 5 \/ m = 6 \/ m = 7 \/ m = 8
              \/ m = 9 \/ m = 10 \/ m = 11 \/ m = 12) by lia;
  clear H;
  repeat (destruct E as [E|E]; [subst m|]); [..|subst m].

Ltac calsimpl :=
  cbv beta iota delta [DAYS_BEFORE_MONTH DAYS_IN_MONTH Z.eqb Z.ltb Z.compare
                       Pos.compare Pos.compare_cont Pos.eqb andb].

(** *** Ordinals *)

Lemma month_day_ok_all :
  forallb (fun k => month_day_ok true (Z.of_nat k) && month_day_ok false (Z.of_nat k))
          (seq 0 365) = true.
Proof. vm_compute. reflexivity. Qed.

Lemma month_day_spec leap n :
  0 <= n < 365 -> month_day_ok leap n = true.
Proof.
  intros Hn.
  pose proof month_day_ok_all as H.
  rewrite forallb_forall in H.
  specialize (H (Z.to_nat n)).
  rewrite Z2Nat.id in H by lia.
  assert (Hin : In (Z.to_nat n) (seq 0 365)) by (apply in_seq; lia).
  apply H in Hin. apply andb_true_iff in Hin.
  destruct leap; tauto.
Qed.

Lemma is_leap_decomp n400 n100 n4 n1 :
  0 <= n100 <= 3 -> 0 <= n4 <= 24 -> 0 <= n1 <= 3 ->
  is_leap (n400 * 400 + 1 + n100 * 100 + n4 * 4 + n1)
  = (n1 =? 3) && (negb (n4 =? 24) || (n100 =? 3)).
Proof.
  intros H100 H4 H1. unfold is_leap.
  destruct (Z.eqb_spec n1 3); destruct (Z.eqb_spec n4 24); destruct (Z.eqb_spec n100 3);
  repeat match goal with |- context [?a mod ?b =? 0] => destruct (Z.eqb_spec (a mod b) 0) end;
  simpl; try reflexivity; exfalso; Z.to_euclidean_division_equations; lia.
Qed.

Lemma days_before_year_decomp n400 n100 n4 n1 :
  0 <= n100 <= 3 -> 0 <= n4 <= 24 -> 0 <= n1 <= 3 ->
  days_before_year (n400 * 400 + 1 + n100 * 100 + n4 * 4 + n1)
  = n400 * DI400Y + n100 * DI100Y + n4 * DI4Y + n1 * 365.
Proof.
  intros. unfold days_before_year, DI400Y, DI100Y, DI4Y.
  Z.to_euclidean_division_equations; lia.
Qed.

Lemma days_in_month_alt y m :
  days_in_month y m = DAYS_IN_MONTH m + (if (m =? 2) && is_leap y then 1 else 0).
Proof.
  unfold days_in_month.
  destruct (Z.eqb_spec m 2) as [->|]; simpl; [destruct (is_leap y); reflexivity | lia].
Qed.

Lemma check_date_fields_iff d :
  check_date_fields d = true <->
  1 <= year d <= 9999 /\ 1 <= month d <= 12
  /\ 1 <= day d <= days_in_month (year d) (month d).
Proof.
  unfold check_date_fields, MINYEAR, MAXYEAR.
  rewrite !andb_true_iff, !Z.leb_le. tauto.
Qed.

Lemma ord2ymd_spec n :
  1 <= n <= MAXORDINAL ->
  check_date_fields (ord2ymd n) = true /\ toordinal (ord2ymd n) = n.
Proof.
  unfold MAXORDINAL. intros Hn.
  unfold ord2ymd.
  set (n0 := n - 1).
  assert (Hn0 : 0 <= n0 < 3652059) by (unfold n0; lia).
  pose proof (Z.div_mod n0 DI400Y ltac:(discriminate)) as E1.
  pose proof (Z.mod_pos_bound n0 DI400Y ltac:(reflexivity)) as B1.
  set (n400 := n0 / DI400Y) in *. set (r1 := n0 mod DI400Y) in *.
  pose proof (Z.div_mod r1 DI100Y ltac:(discriminate)) as E2.
  pose proof (Z.mod_pos_bound r1 DI100Y ltac:(reflexivity)) as B2.
  set (n100 := r1 / DI100Y) in *. set (r2 := r1 mod DI100Y) in *.
  pose proof (Z.div_mod r2 DI4Y ltac:(discriminate)) as E3.
  pose proof (Z.mod_pos_bound r2 DI4Y ltac:(reflexivity)) as B3.
  set (n4 := r2 / DI4Y) in *. set (r3 := r2 mod DI4Y) in *.
  pose proof (Z.div_mod r3 365 ltac:(discriminate)) as E4.
  pose proof (Z.mod_pos_bound r3 365 ltac:(reflexivity)) as B4.
  set (n1 := r3 / 365) in *. set (r4 := r3 mod 365) in *.
  unfold DI400Y, DI100Y, DI4Y in *.
  assert (H400 : 0 <= n400 <= 24) by lia.
  assert (H100 : 0 <= n100 <= 4) by lia.
  assert (H4 : 0 <= n4 <= 24) by lia.
  assert (H1 : 0 <= n1 <= 4) by lia.
  cbv zeta.
  destruct (Z.eqb_spec n1 4) as [En1|En1]; [|destruct (Z.eqb_spec n100 4) as [En100|En100]];
    cbn [orb].
  - (* last day of a leap year, n1 = 4 *)
    assert (Hn4 : n4 <= 23) by lia.
    assert (Hn100 : n100 <= 3) by lia.
    replace (n400 * 400 + 1 + n100 * 100 + n4 * 4 + n1 - 1)
      with (n400 * 400 + 1 + n100 * 100 + n4 * 4 + 3) by lia.
    pose proof (is_leap_decomp n400 n100 n4 3 ltac:(lia) ltac:(lia) ltac:(lia)) as L.
    pose proof (days_before_year_decomp n400 n100 n4 3 ltac:(lia) ltac:(lia) ltac:(lia)) as D.
    replace (n4 =? 24) with false in L by (symmetry; apply Z.eqb_neq; lia).
    cbn in L.
    split.
    + apply check_date_fields_iff. cbn [year month day].
      unfold days_in_month. rewrite L. cbn. lia.
    + unfold toordinal, ymd2ord, days_before_month. cbn [year month day].
      rewrite L, D. unfold DI400Y, DI100Y, DI4Y. cbn. lia.
  - (* last day of a 400-year cycle *)
    assert (n4 = 0 /\ n1 = 0 /\ r4 = 0) as (Z4 & Z1 & Zr) by lia.
    replace (n400 * 400 + 1 + n100 * 100 + n4 * 4 + n1 - 1)
      with (n400 * 400 + 1 + 3 * 100 + 24 * 4 + 3) by lia.
    pose proof (is_leap_decomp n400 3 24 3 ltac:(lia) ltac:(lia) ltac:(lia)) as L.
    pose proof (days_before_year_decomp n400 3 24 3 ltac:(lia) ltac:(lia) ltac:(lia)) as D.
    split.
    + apply check_date_fields_iff. cbn [year month day].
      unfold days_in_month. rewrite L. cbn. lia.
    + unfold toordinal, ymd2ord, days_before_month. cbn [year month day].
      rewrite L, D. unfold DI400Y, DI100Y, DI4Y. cbn. lia.
  - pose proof (is_leap_decomp n400 n100 n4 n1 ltac:(lia) ltac:(lia) ltac:(lia)) as L.
    pose proof (days_before_year_decomp n400 n100 n4 n1 ltac:(lia) ltac:(lia) ltac:(lia)) as D.
    rewrite <- L.
    set (y := n400 * 400 + 1 + n100 * 100 + n4 * 4 + n1) in *.
    pose proof (month_day_spec (is_leap y) r4 B4) as M.
    unfold month_day_ok in M.
    destruct (month_day (is_leap y) r4) as [m d].
    rewrite !andb_true_iff, !Z.leb_le, Z.eqb_eq in M.
    destruct M as ((((M1 & M2) & M3) & M4) & M5).
    split.
    + apply check_date_fields_iff. cbn [year month day].
      rewrite days_in_month_alt.
      assert (1 <= y <= 9999) by (unfold y; lia). lia.
    + unfold toordinal, ymd2ord, days_before_month. cbn [year month day].
      rewrite D. unfold DI400Y, DI100Y, DI4Y. lia.
Qed.

Lemma days_before_year_succ y :
  days_before_year (y + 1) = days_before_year y + 365 + (if is_leap y then 1 else 0).
Proof.
  unfold days_before_year, is_leap.
  repeat match goal with |- context [?a mod ?b =? 0] => destruct (Z.eqb_spec (a mod b) 0) end;
  cbn [andb orb negb]; Z.to_euclidean_division_equations; lia.
Qed.

Lemma days_before_year_mono y1 y2 :
  y1 <= y2 -> days_before_year y1 <= days_before_year y2.
Proof.
  intros H. unfold days_before_year.
  Z.to_euclidean_division_equations; lia.
Qed.

Lemma days_before_month_lt y m1 m2 d1 :
  1 <= m1 -> m1 < m2 -> m2 <= 12 -> d1 <= days_in_month y m1 ->
  days_before_month y m1 + d1 <= days_before_month y m2.
Proof.
  intros H1 H12 H2 Hd.
  assert (Ha : 1 <= m1 <= 12) by lia. assert (Hb : 1 <= m2 <= 12) by lia.
  revert Hd H12. clear H1 H2.
  unfold days_before_month, days_in_month.
  month_cases m1 Ha; month_cases m2 Hb; destruct (is_leap y); calsimpl; lia.
Qed.

Lemma days_before_month_bounds y m :
  1 <= m <= 12 ->
  0 <= days_before_month y m
  /\ days_before_month y m + days_in_month y m
     <= 365 + (if is_leap y then 1 else 0).
Proof.
  intros H. unfold days_before_month, days_in_month.
  month_cases m H; destruct (is_leap y); calsimpl; lia.
Qed.

Section ValidDates.
Variables a b : date.
Hypothesis Va : check_date_fields a = true.
Hypothesis Vb : check_date_fields b = true.

Lemma toordinal_lt : date_cmp a b = Lt -> toordinal a < toordinal b.
Proof using Va Vb.
  apply check_date_fields_iff in Va, Vb.
  destruct a as [y1 m1 d1], b as [y2 m2 d2]; cbn [year month day] in *.
  unfold date_cmp, toordinal, ymd2ord; cbn [year month day].
  destruct (Z.compare_spec y1 y2) as [->|Hy|Hy]; [|intros _|discriminate].
  - destruct (Z.compare_spec m1 m2) as [->|Hm|Hm]; [|intros _|discriminate].
    + rewrite Z.compare_lt_iff. lia.
    + pose proof (days_before_month_lt y2 m1 m2 d1). lia.
  - pose proof (days_before_year_mono (y1 + 1) y2 ltac:(lia)).
    pose proof (days_before_year_succ y1).
    pose proof (days_before_month_bounds y1 m1 ltac:(lia)).
    pose proof (days_before_month_bounds y2 m2 ltac:(lia)).
    lia.
Qed.
End ValidDates.

Lemma date_cmp_eq a b : date_cmp a b = Eq -> a = b.
Proof.
  destruct a as [y1 m1 d1], b as [y2 m2 d2].
  unfold date_cmp; cbn [year month day].
  destruct (Z.compare_spec y1 y2); try discriminate.
  destruct (Z.compare_spec m1 m2); try discriminate.
  destruct (Z.compare_spec d1 d2); try discriminate.
  intros _. congruence.
Qed.


Lemma date_cmp_antisym a b : date_cmp b a = CompOpp (date_cmp a b).
Proof.
  unfold date_cmp.
  rewrite (Z.compare_antisym (year a)), (Z.compare_antisym (month a)),
    (Z.compare_antisym (day a)).
  destruct (year a ?= year b); cbn; try reflexivity.
  destruct (month a ?= month b); cbn; reflexivity.
Qed.

Lemma date_cmp_toordinal a b :
  check_date_fields a = true -> check_date_fields b = true ->
  date_cmp a b = (toordinal a ?= toordinal b).
Proof.
  intros Va Vb. destruct (date_cmp a b) eqn:E; symmetry.
  - apply date_cmp_eq in E. subst. apply Z.compare_refl.
  - apply Z.compare_lt_iff. now apply toordinal_lt.
  - apply Z.compare_gt_iff. apply toordinal_lt; trivial.
    rewrite date_cmp_antisym, E. reflexivity.
Qed.

Lemma toordinal_bounds d :
  check_date_fields d = true -> 1 <= toordinal d <= MAXORDINAL.
Proof.
  intros V.
  pose proof (date_cmp_toordinal (mkdate 1 1 1) d eq_refl V) as H1.
  pose proof (date_cmp_toordinal d (mkdate 9999 12 31) V eq_refl) as H2.
  apply check_date_fields_iff in V.
  change (toordinal (mkdate 1 1 1)) with 1 in H1.
  change (toordinal (mkdate 9999 12 31)) with MAXORDINAL in H2.
  destruct d as [y m dd]; unfold date_cmp in H1, H2; cbn [year month day] in *.
  split.
  - destruct (Z.compare_spec 1 (toordinal (mkdate y m dd))); try lia.
    destruct (Z.compare_spec 1 y); try lia; try discriminate.
    destruct (Z.compare_spec 1 m); try lia; try discriminate.
    destruct (Z.compare_spec 1 dd); try lia; discriminate.
  - destruct (Z.compare_spec (toordinal (mkdate y m dd)) MAXORDINAL); try lia.
    destruct (Z.compare_spec y 9999); try lia; try discriminate.
    destruct (Z.compare_spec m 12); try lia; try discriminate. subst.
    change (days_in_month 9999 12) with 31 in V.
    destruct (Z.compare_spec dd 31); try lia; discriminate.
Qed.

Lemma ord2ymd_toordinal d :
  check_date_fields d = true -> ord2ymd (toordinal d) = d.
Proof.
  intros V. pose proof (toordinal_bounds d V) as B.
  destruct (ord2ymd_spec _ B) as [V' E].
  apply date_cmp_eq. rewrite date_cmp_toordinal, E by assumption.
  apply Z.compare_refl.
Qed.

Lemma add_days_spec d k :
  check_date_fields d = true ->
  1 <= toordinal d + k <= MAXORDINAL ->
  exists d', add_days d k = Some d' /\ check_date_fields d' = true
             /\ toordinal d' = toordinal d + k.
Proof.
  intros V B. unfold add_days.
  destruct (ord2ymd_spec _ B) as [V' E].
  replace ((0 <? toordinal d + k) && (toordinal d + k <=? MAXORDINAL)) with true.
  - eauto.
  - symmetry. apply andb_true_iff. rewrite Z.ltb_lt, Z.leb_le. lia.
Qed.

Lemma add_days_inv d k d' :
  check_date_fields d = true -> add_days d k = Some d' ->
  check_date_fields d' = true /\ toordinal d' = toordinal d + k.
Proof.
  intros V. unfold add_days.
  destruct ((0 <? toordinal d + k) && (toordinal d + k <=? MAXORDINAL)) eqn:E;
    [|discriminate].
  apply andb_true_iff in E. rewrite Z.ltb_lt, Z.leb_le in E.
  intros [= <-]. apply ord2ymd_spec. lia.
Qed.

Lemma add_days_0 d : check_date_fields d = true -> add_days d 0 = Some d.
Proof.
  intros V. destruct (add_days_spec d 0 V) as (d' & E & V' & O).
  - pose proof (toordinal_bounds d V). lia.
  - rewrite E. f_equal. apply date_cmp_eq.
    rewrite date_cmp_toordinal, O by assumption.
    rewrite Z.add_0_r. apply Z.compare_refl.
Qed.

(** *** ISO date strings *)

Lemma N_of_digit x : N_of_ascii (digit_of x) = Z.to_N (48 + x mod 10).
Proof.
  unfold digit_of. apply N_ascii_embedding.
  pose proof (Z.mod_pos_bound x 10 ltac:(lia)). lia.
Qed.

Lemma compare_digit x y :
  Ascii.compare (digit_of x) (digit_of y) = (x mod 10 ?= y mod 10).
Proof.
  unfold Ascii.compare. rewrite !N_of_digit.
  pose proof (Z.mod_pos_bound x 10 ltac:(lia)).
  pose proof (Z.mod_pos_bound y 10 ltac:(lia)).
  rewrite Z2N.inj_compare by lia.
  apply Z.add_compare_mono_l.
Qed.

Lemma digit_val_of x : digit_val (digit_of x) = Some (x mod 10).
Proof.
  unfold digit_val. rewrite N_of_digit.
  pose proof (Z.mod_pos_bound x 10 ltac:(lia)).
  rewrite Z2N.id by lia.
  replace ((48 <=? 48 + x mod 10) && (48 + x mod 10 <=? 57)) with true.
  - f_equal. lia.
  - symmetry. apply andb_true_iff. rewrite !Z.leb_le. lia.
Qed.

Lemma compare_div10 x y :
  (x ?= y) = lexc (x / 10 ?= y / 10) (x mod 10 ?= y mod 10).
Proof.
  unfold lexc.
  destruct (Z.compare_spec (x / 10) (y / 10));
    [destruct (Z.compare_spec (x mod 10) (y mod 10))| |];
    [apply Z.compare_eq_iff | apply Z.compare_lt_iff | apply Z.compare_gt_iff
    | apply Z.compare_lt_iff | apply Z.compare_gt_iff];
    Z.to_euclidean_division_equations; lia.
Qed.

Lemma compare_fmt02 x y r r' :
  0 <= x < 100 -> 0 <= y < 100 ->
  String.compare (fmt02 x ++ r) (fmt02 y ++ r')
  = lexc (x ?= y) (String.compare r r').
Proof.
  intros Hx Hy. unfold fmt02. cbn [append String.compare].
  rewrite !compare_digit, (compare_div10 x y).
  rewrite (Z.mod_small (x / 10)), (Z.mod_small (y / 10))
    by (Z.to_euclidean_division_equations; lia).
  destruct (x / 10 ?= y / 10), (x mod 10 ?= y mod 10); reflexivity.
Qed.

Lemma compare_fmt04 x y r r' :
  0 <= x < 10000 -> 0 <= y < 10000 ->
  String.compare (fmt04 x ++ r) (fmt04 y ++ r')
  = lexc (x ?= y) (String.compare r r').
Proof.
  intros Hx Hy. unfold fmt04, fmt02. cbn [append String.compare].
  rewrite !compare_digit.
  pose proof (compare_div10 x y) as E1.
  pose proof (compare_div10 (x / 10) (y / 10)) as E2.
  rewrite !Z.div_div in E2 by lia. change (10 * 10) with 100 in E2.
  pose proof (compare_div10 (x / 100) (y / 100)) as E3.
  rewrite !Z.div_div in E3 by lia. change (100 * 10) with 1000 in E3.
  rewrite (Z.mod_small (x / 1000)), (Z.mod_small (y / 1000))
    by (Z.to_euclidean_division_equations; lia).
  rewrite E1, E2, E3. unfold lexc.
  destruct (x / 1000 ?= y / 1000), (x / 100 mod 10 ?= y / 100 mod 10),
    (x / 10 mod 10 ?= y / 10 mod 10), (x mod 10 ?= y mod 10); reflexivity.
Qed.

Lemma days_in_month_le_31 y m : 1 <= m <= 12 -> 28 <= days_in_month y m <= 31.
Proof.
  intros H. unfold days_in_month.
  month_cases m H; destruct (is_leap y); calsimpl; lia.
Qed.

Lemma compare_isoformat a b :
  check_date_fields a = true -> check_date_fields b = true ->
  String.compare (isoformat a) (isoformat b) = date_cmp a b.
Proof.
  intros Va Vb. apply check_date_fields_iff in Va, Vb.
  pose proof (days_in_month_le_31 (year a) (month a) ltac:(lia)).
  pose proof (days_in_month_le_31 (year b) (month b) ltac:(lia)).
  unfold isoformat. rewrite compare_fmt04 by lia.
  cbn [append String.compare]. change (Ascii.compare "-" "-") with Eq.
  cbv iota. rewrite compare_fmt02 by lia.
  cbn [append String.compare]. change (Ascii.compare "-" "-") with Eq.
  cbv iota.
  change (fmt02 (day a)) with (fmt02 (day a) ++ "")%string.
  change (fmt02 (day b)) with (fmt02 (day b) ++ "")%string.
  rewrite compare_fmt02 by lia.
  unfold date_cmp, lexc. cbn [String.compare].
  destruct (year a ?= year b), (month a ?= month b), (day a ?= day b); reflexivity.
Qed.

Lemma leb_isoformat a b :
  check_date_fields a = true -> check_date_fields b = true ->
  String.leb (isoformat a) (isoformat b) = date_leb a b.
Proof.
  intros Va Vb. unfold String.leb, date_leb.
  rewrite compare_isoformat by assumption.
  destruct (date_cmp a b); reflexivity.
Qed.

Lemma string_compare_refl s : String.compare s s = Eq.
Proof.
  pose proof (String.compare_antisym s s) as H.
  destruct (String.compare s s); trivial; discriminate.
Qed.

Lemma eqb_isoformat a b :
  check_date_fields a = true -> check_date_fields b = true ->
  String.eqb (isoformat a) (isoformat b) = date_eqb a b.
Proof.
  intros Va Vb. unfold date_eqb.
  destruct (String.eqb_spec (isoformat a) (isoformat b)) as [E|E].
  - rewrite <- compare_isoformat, E by assumption.
    now rewrite string_compare_refl.
  - destruct (date_cmp a b) eqn:C; try reflexivity.
    apply date_cmp_eq in C. subst. congruence.
Qed.

Lemma fromisoformat_chars y1 y2 y3 y4 m1 m2 d1 d2 :
  fromisoformat
    (String y1 (String y2 (String y3 (String y4 (String "-"
      (String m1 (String m2 (String "-"
        (String d1 (String d2 EmptyString))))))))))
  = match digits4 y1 y2 y3 y4, digits2 m1 m2, digits2 d1 d2 with
    | Some y, Some m, Some d =>
        if check_date_fields (mkdate y m d) then Some (mkdate y m d) else None
    | _, _, _ => None
    end.
Proof. reflexivity. Qed.

Lemma fromisoformat_isoformat d :
  check_date_fields d = true -> fromisoformat (isoformat d) = Some d.
Proof.
  intros V. pose proof V as V'. apply check_date_fields_iff in V'.
  pose proof (days_in_month_le_31 (year d) (month d) ltac:(lia)).
  destruct d as [y m dd]; cbn [year month day] in *.
  unfold isoformat, fmt04, fmt02; cbn [append year month day].
  rewrite fromisoformat_chars. unfold digits4, digits2.
  rewrite !digit_val_of.
  replace (100 * (10 * ((y / 1000) mod 10) + (y / 100) mod 10)
           + (10 * ((y / 10) mod 10) + y mod 10)) with y
    by (Z.to_euclidean_division_equations; lia).
  replace (10 * ((m / 10) mod 10) + m mod 10) with m
    by (Z.to_euclidean_division_equations; lia).
  replace (10 * ((dd / 10) mod 10) + dd mod 10) with dd
    by (Z.to_euclidean_division_equations; lia).
  now rewrite V.
Qed.

(** *** The order of dates *)

Lemma date_leb_toordinal a b :
  check_date_fields a = true -> check_date_fields b = true ->
  date_leb a b = (toordinal a <=? toordinal b).
Proof.
  intros Va Vb. unfold date_leb, Z.leb.
  now rewrite date_cmp_toordinal.
Qed.

Lemma date_ltb_leb a b : date_ltb a b = negb (date_leb b a).
Proof.
  unfold date_ltb, date_leb. rewrite (date_cmp_antisym a b).
  destruct (date_cmp a b); reflexivity.
Qed.

Lemma date_eqb_refl d : date_eqb d d = true.
Proof.
  unfold date_eqb, date_cmp. now rewrite !Z.compare_refl.
Qed.

Lemma date_eqb_eq a b : date_eqb a b = true -> a = b.
Proof.
  unfold date_eqb. destruct (date_cmp a b) eqn:E; try discriminate.
  intros _. now apply date_cmp_eq.
Qed.

Lemma weekday_range d : 0 <= weekday d <= 6.
Proof.
  unfold weekday. pose proof (Z.mod_pos_bound (toordinal d + 6) 7). lia.
Qed.

End CalendarFacts.

(** * The store and the synchronisation *)

Module StoreFacts.
Import Calendar Store Sync Examples CalendarFacts.

Lemma has_uid_app u s t : has_uid u (s ++ t) = has_uid u s || has_uid u t.
Proof. apply existsb_app. Qed.

Lemma has_uid_self r : has_uid (uid r) [r] = true.
Proof. unfold has_uid; cbn. now rewrite String.eqb_refl. Qed.

Lemma insert_present s r :
  has_uid (uid r) s = true -> insert_or_ignore s r = s.
Proof. intros H. unfold insert_or_ignore. now rewrite H. Qed.

Lemma insert_absent s r :
  has_uid (uid r) s = false -> insert_or_ignore s r = s ++ [r].
Proof. intros H. unfold insert_or_ignore. now rewrite H. Qed.

Lemma has_uid_insert s r : has_uid (uid r) (insert_or_ignore s r) = true.
Proof.
  unfold insert_or_ignore. destruct (has_uid (uid r) s) eqn:E; trivial.
  now rewrite has_uid_app, has_uid_self, orb_true_r.
Qed.

Lemma has_uid_insert_mono u s r :
  has_uid u s = true -> has_uid u (insert_or_ignore s r) = true.
Proof.
  intros H. unfold insert_or_ignore. destruct (has_uid (uid r) s); trivial.
  now rewrite has_uid_app, H.
Qed.

Lemma find_uid_app_present u s t :
  has_uid u s = true -> find_uid u (s ++ t) = find_uid u s.
Proof.
  unfold has_uid, find_uid. induction s as [|x s IH]; cbn; [discriminate|].
  destruct (String.eqb (uid x) u); cbn; auto.
Qed.

Lemma find_uid_app_absent u s t :
  has_uid u s = false -> find_uid u (s ++ t) = find_uid u t.
Proof.
  unfold has_uid, find_uid. induction s as [|x s IH]; cbn; trivial.
  destruct (String.eqb (uid x) u); cbn; [discriminate|auto].
Qed.

Lemma count_uid_absent u s : has_uid u s = false -> count_uid u s = O.
Proof.
  unfold has_uid, count_uid. induction s as [|x s IH]; cbn; trivial.
  destruct (String.eqb (uid x) u); cbn; [discriminate|auto].
Qed.

Lemma count_uid_app u s t : count_uid u (s ++ t) = (count_uid u s + count_uid u t)%nat.
Proof. unfold count_uid. now rewrite filter_app, length_app. Qed.

(** *** The connection *)

Lemma view_execute c r : view (execute c r) = insert_or_ignore (view c) r.
Proof.
  unfold execute, insert_or_ignore.
  destruct (has_uid (uid r) (view c)); trivial.
  unfold view. cbn [committed pending]. apply app_assoc.
Qed.

Lemma committed_execute c r : committed (execute c r) = committed c.
Proof. unfold execute. now destruct (has_uid (uid r) (view c)). Qed.

Lemma view_commit c : view (commit c) = view c.
Proof. unfold commit, view at 1. cbn. apply app_nil_r. Qed.

Lemma view_rollback c : view (rollback c) = committed c.
Proof. unfold rollback, view. cbn. apply app_nil_r. Qed.

Lemma view_fresh s : view (mkconn s []) = s.
Proof. unfold view. cbn. apply app_nil_r. Qed.

(** A record stored at once on a connection without open transaction. *)
Lemma store_event_done_fresh s r :
  store_event Done (mkconn s []) r = mkconn (insert_or_ignore s r) [].
Proof.
  unfold store_event, commit. now rewrite view_execute, view_fresh.
Qed.

(** Whatever the storage does, the committed table only gets rows appended,
    taken from the open transaction and the record at hand. *)
Lemma store_event_appends o c r :
  exists added,
    committed (store_event o c r) = committed c ++ added
    /\ incl added (pending c ++ [r])
    /\ incl (pending (store_event o c r)) (pending c ++ [r]).
Proof.
  destruct o; cbn [store_event].
  - exists (pending (execute c r)). unfold commit. cbn [committed pending].
    unfold view. rewrite committed_execute.
    assert (I : incl (pending (execute c r)) (pending c ++ [r])).
    { unfold execute. destruct (has_uid (uid r) (view c)); cbn [pending].
      - now apply incl_appl, incl_refl.
      - apply incl_refl. }
    split; [reflexivity|]. split; [exact I|intros x []].
  - exists []. rewrite app_nil_r. split; [reflexivity|]. split; [intros x []|].
    now apply incl_appl, incl_refl.
  - exists []. rewrite app_nil_r, committed_execute.
    split; [reflexivity|]. split; [intros x []|].
    unfold execute. destruct (has_uid (uid r) (view c)); cbn [pending].
    + now apply incl_appl, incl_refl.
    + apply incl_refl.
  - exists []. rewrite app_nil_r. cbn. split; [reflexivity|].
    split; intros x [].
Qed.

Lemma store_event_keeps u o c r :
  has_uid u (committed c) = true ->
  has_uid u (committed (store_event o c r)) = true.
Proof.
  intros H. destruct (store_event_appends o c r) as (a & E & _).
  now rewrite E, has_uid_app, H.
Qed.

Lemma store_event_done_stores c r :
  has_uid (uid r) (committed (store_event Done c r)) = true.
Proof.
  cbn [store_event]. unfold commit. cbn [committed].
  rewrite view_execute. apply has_uid_insert.
Qed.

(** On a connection without open transaction a record whose uid is stored
    changes nothing, whatever the storage does. *)
Lemma store_event_noop o c r :
  pending c = [] -> has_uid (uid r) (committed c) = true ->
  committed (store_event o c r) = committed c
  /\ pending (store_event o c r) = [].
Proof.
  destruct c as [s p]. cbn [pending committed]. intros -> H.
  assert (E : execute (mkconn s []) r = mkconn s []).
  { unfold execute. now rewrite view_fresh, H. }
  destruct o; cbn [store_event]; rewrite ?E; unfold commit, rollback;
    rewrite ?view_fresh; cbn; auto.
Qed.

Lemma insert_events_keeps medium u : forall evs i c log,
  has_uid u (committed c) = true ->
  has_uid u (committed (fst (fst (insert_events medium i evs c log)))) = true.
Proof.
  induction evs as [|e evs IH]; intros i c log H; cbn [insert_events fst];
    trivial.
  destruct (extract e) as [r|]; cbn [fst]; trivial.
  apply IH. now apply store_event_keeps.
Qed.

Lemma insert_events_stores : forall evs i c log r,
  In r (reached evs) ->
  has_uid (uid r)
    (committed (fst (fst (insert_events no_failure i evs c log)))) = true.
Proof.
  induction evs as [|e evs IH]; intros i c log r H; cbn [reached] in H;
    [destruct H|].
  cbn [insert_events]. destruct (extract e) as [r0|]; [|destruct H].
  destruct H as [->|H]; [|now apply IH].
  apply insert_events_keeps. unfold no_failure. apply store_event_done_stores.
Qed.

Lemma insert_events_noop medium : forall evs i c log,
  pending c = [] ->
  (forall r, In r (reached evs) -> has_uid (uid r) (committed c) = true) ->
  committed (fst (fst (insert_events medium i evs c log))) = committed c.
Proof.
  induction evs as [|e evs IH]; intros i c log Hp H; cbn [insert_events reached] in *;
    trivial.
  destruct (extract e) as [r|]; cbn [fst]; trivial.
  destruct (store_event_noop (medium i) c r Hp (H r (or_introl eq_refl)))
    as [Ec Ep].
  rewrite IH; trivial.
  intros r' Hr'. rewrite Ec. apply H. now right.
Qed.

Lemma update_schedule_store f medium s :
  fst (update_schedule f medium s)
  = match f with
    | Parsed evs =>
        committed (fst (fst (insert_events medium O evs (mkconn s []) [Downloaded])))
    | _ => s
    end.
Proof.
  destruct f; cbn; trivial.
  destruct (insert_events medium 0 events (mkconn s []) [Downloaded])
    as [[c l] []]; reflexivity.
Qed.

Lemma update_schedule_twice f medium s :
  let s1 := fst (update_schedule f no_failure s) in
  fst (update_schedule f medium s1) = s1.
Proof.
  cbv zeta. rewrite !update_schedule_store. destruct f; trivial.
  rewrite insert_events_noop; trivial.
  intros r H. cbn [committed]. now apply insert_events_stores.
Qed.

(** C1 (amended): after an event has been stored, a second insert attempt
    with its uid is a no-op: the table is unchanged and the uid still maps
    to the first-seen record; and when the first run of update_schedule
    meets no storage failure, a second run on the same feed, whatever the
    storage does then, leaves the table, hence its row count, as the first
    run left it. *)
Theorem C1_insert_idempotent (s : store) (e e' : row) :
  uid e' = uid e ->
  let s1 := insert_or_ignore s e in
  insert_or_ignore s1 e' = s1
  /\ find_uid (uid e) (insert_or_ignore s1 e') = find_uid (uid e) s1
  /\ (has_uid (uid e) s = false ->
      find_uid (uid e) (insert_or_ignore s1 e') = Some e)
  /\ (forall (f : feed) (medium : nat -> outcome),
        let t1 := fst (update_schedule f no_failure s) in
        let t2 := fst (update_schedule f medium t1) in
        t2 = t1 /\ List.length t2 = List.length t1).
Proof.
  intros Hu s1.
  assert (E : insert_or_ignore s1 e' = s1).
  { apply insert_present. rewrite Hu. apply has_uid_insert. }
  split; [exact E|]. rewrite E.
  split; [reflexivity|]. split.
  - intros Ha. unfold s1. rewrite insert_absent by trivial.
    rewrite find_uid_app_absent by trivial.
    unfold find_uid; cbn. now rewrite String.eqb_refl.
  - intros f medium. cbv zeta.
    rewrite (update_schedule_twice f medium s). auto.
Qed.

Lemma C1_insert_idempotent_witness :
  let s := [mkrow "1" "Show A: 2x05" "2024-05-10"] in
  let e := mkrow "2" "Show A: 2x06" "2024-05-10" in
  let e' := mkrow "2" "Show A: 2x06 (changed)" "2024-05-11" in
  uid e' = uid e
  /\ find_uid "2" (insert_or_ignore (insert_or_ignore s e) e') = Some e.
Proof.
  cbv zeta. split; [reflexivity|].
  apply (C1_insert_idempotent
           [mkrow "1" "Show A: 2x05" "2024-05-10"]
           (mkrow "2" "Show A: 2x06" "2024-05-10")
           (mkrow "2" "Show A: 2x06 (changed)" "2024-05-11") eq_refl).
  reflexivity.
Defined.

(** C1, as stated, fails when the first run meets a storage failure: the
    record it skipped is inserted by the second run on the same feed, and
    the table has two rows after the first run and three after the
    second. *)
Lemma C1_sync_twice_counterexample :
  let t1 := fst (update_schedule (Parsed feed3) (fails_at 1 StatementFails) []) in
  let t2 := fst (update_schedule (Parsed feed3) no_failure t1) in
  List.length t1 = 2%nat /\ List.length t2 = 3%nat.
Proof. cbv zeta. split; vm_compute; reflexivity. Qed.

Lemma insert_events_log_irrelevant medium : forall evs i c log log',
  fst (fst (insert_events medium i evs c log))
  = fst (fst (insert_events medium i evs c log')).
Proof.
  induction evs as [|e evs IH]; intros i c log log'; cbn [insert_events];
    trivial.
  destruct (extract e); [apply IH|reflexivity].
Qed.

(** C2 (amended): the insert writes the record only when its uid is not
    in the table and a duplicate raises nothing; update_schedule gives no
    report of whether a row was written: for every record with a new uid,
    the run that inserts it and the next run, which ignores it, leave the
    same log, and the table then holds exactly one row for the uid. *)
Theorem C2_insert_without_report (s : store) (e : vevent) (r : row) :
  extract e = Some r -> has_uid (uid r) s = false ->
  let run1 := update_schedule (Parsed [e]) no_failure s in
  let run2 := update_schedule (Parsed [e]) no_failure (fst run1) in
  fst run1 = s ++ [r]
  /\ fst run2 = fst run1
  /\ count_uid (uid r) (fst run2) = 1%nat
  /\ snd run1 = [Downloaded; Updated]
  /\ snd run2 = snd run1.
Proof.
  intros He Ha. cbv zeta.
  assert (E1 : update_schedule (Parsed [e]) no_failure s
               = (s ++ [r], [Downloaded; Updated])).
  { cbn [update_schedule insert_events]. rewrite He.
    unfold no_failure. rewrite store_event_done_fresh, insert_absent by trivial.
    reflexivity. }
  assert (E2 : update_schedule (Parsed [e]) no_failure (s ++ [r])
               = (s ++ [r], [Downloaded; Updated])).
  { cbn [update_schedule insert_events]. rewrite He.
    unfold no_failure. rewrite store_event_done_fresh, insert_present.
    - reflexivity.
    - now rewrite has_uid_app, has_uid_self, orb_true_r. }
  rewrite E1. cbn [fst snd]. rewrite E2. cbn [fst snd].
  repeat split.
  rewrite count_uid_app, count_uid_absent by trivial.
  unfold count_uid; cbn. now rewrite String.eqb_refl.
Qed.

Lemma C2_insert_without_report_witness :
  let e := mkvevent (Some "1") (Some (DtDateTime (mkdate 2024 5 10)))
                    (Some "Show A: 2x05") in
  count_uid "1"
    (fst (update_schedule (Parsed [e]) no_failure
            (fst (update_schedule (Parsed [e]) no_failure [])))) = 1%nat.
Proof.
  cbv zeta.
  exact (proj1 (proj2 (proj2
           (C2_insert_without_report []
              (mkvevent (Some "1") (Some (DtDateTime (mkdate 2024 5 10)))
                        (Some "Show A: 2x05"))
              (mkrow "1" "Show A: 2x05" "2024-05-10") eq_refl eq_refl)))).
Defined.

(** C2, as stated, fails: the first call writes a row and the second
    writes none, yet the two calls give the same and only output, the log:
    nothing reports whether an insert occurred. *)
Lemma C2_no_report_counterexample :
  let e := mkvevent (Some "1") (Some (DtDateTime (mkdate 2024 5 10)))
                    (Some "Show A: 2x05") in
  let run1 := update_schedule (Parsed [e]) no_failure [] in
  let run2 := update_schedule (Parsed [e]) no_failure (fst run1) in
  List.length (fst run1) = 1%nat
  /\ List.length (fst run2) = List.length (fst run1)
  /\ snd run1 = snd run2.
Proof. cbv zeta. repeat split. Qed.

Lemma insert_events_ext medium medium' : forall evs i c log,
  (forall j, (i <= j)%nat -> medium j = medium' j) ->
  insert_events medium i evs c log = insert_events medium' i evs c log.
Proof.
  induction evs as [|e evs IH]; intros i c log H; cbn [insert_events]; trivial.
  destruct (extract e); trivial.
  rewrite <- (H i) by lia.
  apply IH; intros j Hj; apply H; lia.
Qed.

Lemma insert_events_shift medium : forall evs i c log,
  insert_events (fun j => medium (S j)) i evs c log
  = insert_events medium (S i) evs c log.
Proof.
  induction evs as [|e evs IH]; intros i c log; cbn [insert_events]; trivial.
  destruct (extract e); [apply IH|reflexivity].
Qed.

Lemma insert_events_skip medium : forall pre i e r post c log,
  extract e = Some r -> medium (i + List.length pre)%nat = StatementFails ->
  fst (fst (insert_events medium i (pre ++ e :: post) c log))
  = fst (fst (insert_events (skip_at (i + List.length pre) medium) i
                            (pre ++ post) c log)).
Proof.
  induction pre as [|p pre IH]; intros i e r post c log He Hf;
    cbn [app List.length] in *.
  - rewrite Nat.add_0_r in *. cbn [insert_events]. rewrite He, Hf.
    cbn [store_event failed].
    rewrite (insert_events_log_irrelevant _ _ _ _ _ log).
    rewrite <- insert_events_shift.
    f_equal. f_equal. apply insert_events_ext.
    intros j Hj. unfold skip_at.
    destruct (Nat.ltb_spec j i); [lia|reflexivity].
  - cbn [insert_events]. destruct (extract p) as [rp|]; trivial.
    replace (skip_at (i + S (List.length pre)) medium i) with (medium i)
      by (unfold skip_at;
          destruct (Nat.ltb_spec i (i + S (List.length pre))); [reflexivity|lia]).
    replace (i + S (List.length pre))%nat with (S i + List.length pre)%nat in *
      by lia.
    now apply IH with (r := r).
Qed.

Lemma insert_events_log_keeps medium x : forall evs i c log,
  In x log -> In x (snd (fst (insert_events medium i evs c log))).
Proof.
  induction evs as [|e evs IH]; intros i c log H; cbn [insert_events]; trivial.
  destruct (extract e); trivial.
  apply IH. destruct (failed (medium i)); trivial.
  apply in_or_app. now left.
Qed.

(** What happens to the [k]-th record the loop reaches. *)
Lemma insert_events_nth medium : forall evs k i c log r,
  nth_error (reached evs) k = Some r ->
  let res := insert_events medium i evs c log in
  (failed (medium (i + k)%nat) = true ->
   In (InsertFailed (uid r)) (snd (fst res)))
  /\ (medium (i + k)%nat = Done ->
      has_uid (uid r) (committed (fst (fst res))) = true).
Proof.
  induction evs as [|e evs IH]; intros k i c log r H; cbn [reached] in H.
  - destruct k; discriminate.
  - cbn [insert_events]. destruct (extract e) as [r0|] eqn:He.
    + destruct k as [|k]; cbn [nth_error] in H.
      * injection H as ->. rewrite Nat.add_0_r. cbv zeta. split.
        -- intros F. rewrite F.
           apply insert_events_log_keeps, in_or_app. right. now left.
        -- intros D. rewrite D.
           apply insert_events_keeps, store_event_done_stores.
      * replace (i + S k)%nat with (S i + k)%nat by lia.
        now apply IH.
    + destruct k; discriminate.
Qed.

Lemma update_schedule_log evs medium s :
  incl (snd (fst (insert_events medium O evs (mkconn s []) [Downloaded])))
       (snd (update_schedule (Parsed evs) medium s)).
Proof.
  cbn. destruct (insert_events medium 0 evs (mkconn s []) [Downloaded])
    as [[c l] []]; cbn; intros x Hx; apply in_or_app; now left.
Qed.

(** C8: a download failure or a parse failure leaves the table as it was;
    a storage failure on one record, of whatever kind, is logged and the
    loop goes on: every record it reaches whose own insert and commit
    succeed is stored, whatever happened to the records before it; and a
    record whose statement fails is skipped, the run being the run on the
    feed without it. *)
Theorem C8_failure_isolation (medium : nat -> outcome) (s : store) :
  fst (update_schedule FetchFailed medium s) = s
  /\ fst (update_schedule Malformed medium s) = s
  /\ (forall evs k r,
        nth_error (reached evs) k = Some r ->
        let res := update_schedule (Parsed evs) medium s in
        (failed (medium k) = true -> In (InsertFailed (uid r)) (snd res))
        /\ (medium k = Done -> has_uid (uid r) (fst res) = true))
  /\ (forall pre e r post,
        extract e = Some r -> medium (List.length pre) = StatementFails ->
        fst (update_schedule (Parsed (pre ++ e :: post)) medium s)
        = fst (update_schedule (Parsed (pre ++ post))
                 (skip_at (List.length pre) medium) s)).
Proof.
  split; [reflexivity|]. split; [reflexivity|]. split.
  - intros evs k r H. cbv zeta.
    destruct (insert_events_nth medium evs k O (mkconn s []) [Downloaded] r H)
      as [N1 N2]. cbn [Nat.add] in N1, N2.
    split.
    + intros F. now apply update_schedule_log, N1.
    + intros D. rewrite update_schedule_store. now apply N2.
  - intros pre e r post He Hf. rewrite !update_schedule_store. f_equal.
    now apply (insert_events_skip medium pre O e r).
Qed.

Lemma C8_failure_isolation_witness :
  let medium := fails_at 1 CommitFails in
  let res := update_schedule (Parsed feed3) medium [] in
  In (InsertFailed "2") (snd res)
  /\ has_uid "3" (fst res) = true
  /\ fst (update_schedule (Parsed feed3) (fails_at 1 StatementFails) [])
     = fst (update_schedule
              (Parsed [nth 0 feed3 (mkvevent None None None);
                       nth 2 feed3 (mkvevent None None None)])
              (skip_at 1 (fails_at 1 StatementFails)) []).
Proof.
  cbv zeta. split; [|split].
  - exact (proj1 (proj1 (proj2 (proj2
             (C8_failure_isolation (fails_at 1 CommitFails) [])))
             feed3 1%nat (mkrow "2" "Show A: 2x06" "2024-05-10") eq_refl)
             eq_refl).
  - exact (proj2 (proj1 (proj2 (proj2
             (C8_failure_isolation (fails_at 1 CommitFails) [])))
             feed3 2%nat (mkrow "3" "Show B: 1x01" "2024-05-11") eq_refl)
             eq_refl).
  - exact (proj2 (proj2 (proj2
             (C8_failure_isolation (fails_at 1 StatementFails) [])))
             [nth 0 feed3 (mkvevent None None None)]
             (nth 1 feed3 (mkvevent None None None))
             (mkrow "2" "Show A: 2x06" "2024-05-10")
             [nth 2 feed3 (mkvevent None None None)] eq_refl eq_refl).
Defined.

(** *** Tables of ISO dates *)

Lemma is_iso_date_inv t :
  is_iso_date t = true ->
  exists d, check_date_fields d = true /\ t = isoformat d
            /\ fromisoformat t = Some d.
Proof.
  unfold is_iso_date. destruct (fromisoformat t) as [d|]; [|discriminate].
  rewrite andb_true_iff, String.eqb_eq. intros [V E]. eauto.
Qed.

Lemma is_iso_date_isoformat d :
  check_date_fields d = true -> is_iso_date (isoformat d) = true.
Proof.
  intros V. unfold is_iso_date. rewrite fromisoformat_isoformat by trivial.
  now rewrite V, String.eqb_refl.
Qed.

Lemma iso_store_In s r :
  iso_store s = true -> In r s -> is_iso_date (start_date r) = true.
Proof.
  unfold iso_store. rewrite forallb_forall. auto.
Qed.

Lemma iso_store_insert s r :
  iso_store s = true -> is_iso_date (start_date r) = true ->
  iso_store (insert_or_ignore s r) = true.
Proof.
  intros Hs Hr. unfold insert_or_ignore.
  destruct (has_uid (uid r) s); trivial.
  unfold iso_store in *. rewrite forallb_app, Hs. cbn. now rewrite Hr.
Qed.

Lemma iso_store_prefix s t : iso_store (s ++ t) = true -> iso_store s = true.
Proof.
  unfold iso_store. rewrite forallb_app, andb_true_iff. tauto.
Qed.

Lemma iso_view_store_event o c r :
  iso_store (view c) = true -> is_iso_date (start_date r) = true ->
  iso_store (view (store_event o c r)) = true.
Proof.
  intros Hc Hr. destruct o; cbn [store_event].
  - rewrite view_commit, view_execute. now apply iso_store_insert.
  - exact Hc.
  - rewrite view_execute. now apply iso_store_insert.
  - rewrite view_rollback. now apply (iso_store_prefix _ (pending c)).
Qed.

(** Ingestion keeps the table a table of ISO dates. *)
Lemma insert_events_iso medium : forall evs i c log,
  valid_feed evs = true -> iso_store (view c) = true ->
  iso_store (view (fst (fst (insert_events medium i evs c log)))) = true.
Proof.
  induction evs as [|e evs IH]; intros i c log Hv Hs; cbn [insert_events];
    trivial.
  cbn in Hv. apply andb_true_iff in Hv. destruct Hv as [He Hv].
  destruct (extract e) as [r|] eqn:Ex; trivial.
  apply IH; trivial. apply iso_view_store_event; trivial.
  unfold extract in Ex.
  destruct (ev_uid e); [|discriminate].
  destruct (ev_dtstart e) as [[d|d]|]; try discriminate.
  destruct (ev_summary e); [|discriminate].
  injection Ex as <-. cbn [start_date]. now apply is_iso_date_isoformat.
Qed.

Lemma update_schedule_iso f medium s :
  match f with Parsed evs => valid_feed evs = true | _ => True end ->
  iso_store s = true -> iso_store (fst (update_schedule f medium s)) = true.
Proof.
  intros Hv Hs. rewrite update_schedule_store. destruct f; trivial.
  apply (iso_store_prefix _ (pending (fst (fst
           (insert_events medium 0 events (mkconn s []) [Downloaded]))))).
  apply (insert_events_iso medium events 0%nat (mkconn s []) [Downloaded] Hv).
  now rewrite view_fresh.
Qed.

End StoreFacts.

(** * Date-range queries, the week's end and the reminders *)

Module QueryFacts.
Import Calendar Store PyStr CalendarFacts StoreFacts.

Lemma between_iso d1 d2 r :
  check_date_fields d1 = true -> check_date_fields d2 = true ->
  is_iso_date (start_date r) = true ->
  String.leb (isoformat d1) (start_date r) && String.leb (start_date r) (isoformat d2)
  = match fromisoformat (start_date r) with
    | Some d => date_leb d1 d && date_leb d d2
    | None => false
    end.
Proof.
  intros V1 V2 H. destruct (is_iso_date_inv _ H) as (d & V & E & F).
  rewrite F, E, !leb_isoformat by assumption. reflexivity.
Qed.

(** C3: on a table whose dates are ISO strings, the range query between
    the ISO strings of d1 and d2 returns exactly the rows whose date d
    satisfies d1 <= d <= d2; the bytewise comparison of ISO strings is the
    comparison of the dates. *)
Theorem C3_date_range (s : store) (d1 d2 : date) :
  iso_store s = true ->
  check_date_fields d1 = true -> check_date_fields d2 = true ->
  select_between (isoformat d1) (isoformat d2) s = dated_between d1 d2 s
  /\ (forall r, In r (select_between (isoformat d1) (isoformat d2) s) <->
                In r s /\ exists d, check_date_fields d = true
                                    /\ start_date r = isoformat d
                                    /\ date_leb d1 d = true /\ date_leb d d2 = true)
  /\ (forall a b, check_date_fields a = true -> check_date_fields b = true ->
                  String.leb (isoformat a) (isoformat b) = date_leb a b).
Proof.
  intros Hs V1 V2.
  assert (E : select_between (isoformat d1) (isoformat d2) s = dated_between d1 d2 s).
  { unfold select_between, dated_between. apply filter_ext_in.
    intros r Hr. apply between_iso; trivial. eapply iso_store_In; eauto. }
  split; [exact E|]. split; [|apply leb_isoformat].
  intros r. rewrite E. unfold dated_between. rewrite filter_In.
  split.
  - intros [Hin Hr]. split; trivial.
    destruct (is_iso_date_inv _ (iso_store_In _ _ Hs Hin)) as (d & V & Ed & F).
    rewrite F in Hr. apply andb_true_iff in Hr. exists d. tauto.
  - intros [Hin (d & V & Ed & L1 & L2)]. split; trivial.
    rewrite Ed, fromisoformat_isoformat, L1, L2 by trivial. reflexivity.
Qed.

Lemma C3_date_range_witness :
  let s := [mkrow "1" "Show A: 2x05" "2024-05-10";
            mkrow "2" "Show B: 1x01" "2024-06-01";
            mkrow "3" "Show C: 4x10" "2023-12-31"] in
  select_between (isoformat (mkdate 2024 5 9)) (isoformat (mkdate 2024 5 12)) s
  = [mkrow "1" "Show A: 2x05" "2024-05-10"].
Proof.
  cbv zeta.
  rewrite (proj1 (C3_date_range
                    [mkrow "1" "Show A: 2x05" "2024-05-10";
                     mkrow "2" "Show B: 1x01" "2024-06-01";
                     mkrow "3" "Show C: 4x10" "2023-12-31"]
                    (mkdate 2024 5 9) (mkdate 2024 5 12)
                    eq_refl eq_refl eq_refl)).
  reflexivity.
Defined.

Import Weekly Notify.

(** C4: the end bound of the weekly range is the first Sunday on or after
    today: it is a Sunday, not before today, and no later than any Sunday
    on or after today; on a Sunday it is today, on a Wednesday it is four
    days later. *)
Theorem C4_week_end_first_sunday (today : date) :
  check_date_fields today = true ->
  (exists s, check_date_fields s = true /\ date_leb today s = true
             /\ weekday s = 6) ->
  exists sunday,
    week_end today = Some sunday
    /\ check_date_fields sunday = true
    /\ weekday sunday = 6
    /\ date_leb today sunday = true
    /\ (forall d, check_date_fields d = true -> date_leb today d = true ->
                  weekday d = 6 -> date_leb sunday d = true)
    /\ (weekday today = 6 -> sunday = today)
    /\ (weekday today = 2 -> add_days today 4 = Some sunday).
Proof.
  intros V (s & Vs & Ls & Ws).
  pose proof (toordinal_bounds today V) as Bt.
  pose proof (toordinal_bounds s Vs) as Bs.
  rewrite date_leb_toordinal, Z.leb_le in Ls by assumption.
  pose proof (weekday_range today) as Rw.
  assert (Hk : 0 <= (6 - weekday today) mod 7 < 7) by (apply Z.mod_pos_bound; lia).
  assert (Ek : (6 - weekday today) mod 7 = 6 - weekday today)
    by (apply Z.mod_small; lia).
  unfold week_end. rewrite Ek.
  assert (Hs : toordinal today + (6 - weekday today) <= toordinal s).
  { unfold weekday in *. Z.to_euclidean_division_equations. lia. }
  destruct (add_days_spec today (6 - weekday today) V ltac:(lia))
    as (sunday & E & V' & O).
  exists sunday. split; [exact E|]. split; [exact V'|].
  assert (W : weekday sunday = 6).
  { unfold weekday in *. rewrite O. Z.to_euclidean_division_equations. lia. }
  split; [exact W|]. split.
  { rewrite date_leb_toordinal, Z.leb_le by assumption. lia. }
  split.
  { intros d Vd Ld Wd.
    rewrite date_leb_toordinal, Z.leb_le in * by assumption.
    rewrite O. unfold weekday in *. Z.to_euclidean_division_equations. lia. }
  split.
  - intros W6. rewrite W6, Z.sub_diag, add_days_0 in E by trivial. congruence.
  - intros W2. rewrite <- E, W2. reflexivity.
Qed.

Lemma C4_week_end_first_sunday_witness :
  week_end (mkdate 2024 5 8) = Some (mkdate 2024 5 12)
  /\ week_end (mkdate 2024 5 12) = Some (mkdate 2024 5 12).
Proof.
  split.
  - destruct (C4_week_end_first_sunday (mkdate 2024 5 8) eq_refl
                (ex_intro _ (mkdate 2024 5 12) (conj eq_refl (conj eq_refl eq_refl))))
      as (sunday & E & _ & _ & _ & _ & _ & W).
    rewrite E. rewrite <- (W eq_refl). reflexivity.
  - destruct (C4_week_end_first_sunday (mkdate 2024 5 12) eq_refl
                (ex_intro _ (mkdate 2024 5 12) (conj eq_refl (conj eq_refl eq_refl))))
      as (sunday & E & _ & _ & _ & _ & S & _).
    rewrite E. now rewrite (S eq_refl).
Defined.

Lemma message_text_cases summary :
  message_text summary
  = if Nat.eqb (List.length (split ": " summary)) 2
    then ("Reminder: " ++ nth 0 (split ": " summary) "" ++ nl ++ "🔴 Episode: "
          ++ nth 1 (split ": " summary) "" ++ " airs tomorrow!")%string
    else ("Reminder: " ++ summary ++ " airs tomorrow!")%string.
Proof.
  unfold message_text.
  destruct (split ": " summary) as [|a [|b [|c l]]]; reflexivity.
Qed.

(** C9: every stored event dated tomorrow gets a reminder; its text is the
    structured show/episode message exactly when the summary splits on ": "
    into two parts, and the raw summary wrapped in the generic sentence
    otherwise. *)
Theorem C9_reminder_for_every_event (today tomorrow : date) (s : store) (r : row) :
  add_days today 1 = Some tomorrow ->
  In r s -> start_date r = isoformat tomorrow ->
  In (uid r, message_text (summary r)) (send_notifications today s)
  /\ List.length (send_notifications today s)
     = List.length (select_on (isoformat tomorrow) s)
  /\ (Nat.eqb (List.length (split ": " (summary r))) 2 = false ->
      message_text (summary r)
      = ("Reminder: " ++ summary r ++ " airs tomorrow!")%string)
  /\ (Nat.eqb (List.length (split ": " (summary r))) 2 = true ->
      message_text (summary r)
      = ("Reminder: " ++ nth 0 (split ": " (summary r)) "" ++ nl
         ++ "🔴 Episode: " ++ nth 1 (split ": " (summary r)) ""
         ++ " airs tomorrow!")%string).
Proof.
  intros Ht Hin Hd. unfold send_notifications. rewrite Ht.
  split.
  - apply (in_map (fun r => (uid r, message_text (summary r)))).
    unfold select_on. apply filter_In. split; trivial.
    rewrite Hd. apply String.eqb_refl.
  - split; [apply length_map|].
    rewrite message_text_cases.
    split; intros ->; reflexivity.
Qed.

Lemma C9_reminder_for_every_event_witness :
  In ("9", "Reminder: Malformed Entry airs tomorrow!")
     (send_notifications (mkdate 2024 5 9)
        [mkrow "1" "Show A: 2x05" "2024-05-10";
         mkrow "9" "Malformed Entry" "2024-05-10"]).
Proof.
  exact (proj1 (C9_reminder_for_every_event
                  (mkdate 2024 5 9) (mkdate 2024 5 10)
                  [mkrow "1" "Show A: 2x05" "2024-05-10";
                   mkrow "9" "Malformed Entry" "2024-05-10"]
                  (mkrow "9" "Malformed Entry" "2024-05-10")
                  eq_refl (or_intror (or_introl eq_refl)) eq_refl)).
Defined.

End QueryFacts.

(** * The weekly view *)

Module WeeklyFacts.
Import Calendar Store PyStr Weekly Examples CalendarFacts StoreFacts.

(** *** The defensive test *)

Section WeekEvents.
Variables (today sunday : date) (s : store).
Hypothesis Vt : check_date_fields today = true.
Hypothesis Hs : iso_store s = true.

Lemma week_event_date r :
  In r (week_events today sunday s) ->
  exists d, fromisoformat (start_date r) = Some d
            /\ date_ltb d today = false.
Proof using Vt Hs.
  unfold week_events, select_between. rewrite filter_In, andb_true_iff.
  intros [Hin [Hlo _]].
  destruct (is_iso_date_inv _ (iso_store_In _ _ Hs Hin)) as (d & V & E & F).
  exists d. split; trivial.
  rewrite E, leb_isoformat in Hlo by assumption.
  now rewrite date_ltb_leb, Hlo.
Qed.

Lemma parse_event_defensive r :
  In r (week_events today sunday s) ->
  parse_event true today r = parse_event false today r.
Proof using Vt Hs.
  intros H. destruct (week_event_date r H) as (d & F & L).
  unfold parse_event. now rewrite F, L.
Qed.
End WeekEvents.

Lemma fold_left_ext_in {A B} (f g : A -> B -> A) (l : list B) :
  (forall a b, In b l -> f a b = g a b) ->
  forall a, fold_left f l a = fold_left g l a.
Proof.
  induction l as [|x l IH]; intros H a; cbn; trivial.
  rewrite H by now left. apply IH. intros; apply H; now right.
Qed.

(** C10: on a table of ISO dates the test of line 162 never fires on a row
    the range query returns, and the loop without the test builds the same
    grouped view (and leaves the same season). *)
Theorem C10_defensive_filter_inert (today sunday : date) (s : store) :
  check_date_fields today = true -> iso_store s = true ->
  (forall r, In r (week_events today sunday s) ->
             exists d, fromisoformat (start_date r) = Some d
                       /\ date_ltb d today = false)
  /\ group_events true today (week_events today sunday s)
     = group_events false today (week_events today sunday s).
Proof.
  intros Vt Hs. split.
  - intros r. now apply week_event_date.
  - unfold group_events. apply fold_left_ext_in.
    intros st r Hr. unfold process_event.
    now rewrite (parse_event_defensive today sunday s Vt Hs r Hr).
Qed.

Lemma C10_defensive_filter_inert_witness :
  let s := [mkrow "1" "Show A: 2x05" "2024-05-10";
            mkrow "2" "Show B: 1x01" "2024-05-01"] in
  group_events true (mkdate 2024 5 9)
    (week_events (mkdate 2024 5 9) (mkdate 2024 5 12) s)
  = group_events false (mkdate 2024 5 9)
      (week_events (mkdate 2024 5 9) (mkdate 2024 5 12) s).
Proof.
  exact (proj2 (C10_defensive_filter_inert
                  (mkdate 2024 5 9) (mkdate 2024 5 12)
                  [mkrow "1" "Show A: 2x05" "2024-05-10";
                   mkrow "2" "Show B: 1x01" "2024-05-01"] eq_refl eq_refl)).
Defined.

(** *** Grouping *)

Lemma find_add_show t t' ep sh :
  find (fun p => String.eqb (fst p) t) (add_show t' ep sh)
  = if String.eqb t' t
    then Some (t', match find (fun p => String.eqb (fst p) t) sh with
                   | Some p => snd p ++ [ep]
                   | None => [ep]
                   end)
    else find (fun p => String.eqb (fst p) t) sh.
Proof.
  induction sh as [|[k eps] sh IH]; cbn [add_show find fst snd].
  - destruct (String.eqb_spec t' t); reflexivity.
  - destruct (String.eqb_spec k t') as [->|Hk]; cbn [find fst snd].
    + destruct (String.eqb_spec t' t); reflexivity.
    + destruct (String.eqb_spec k t) as [->|Hkt].
      * destruct (String.eqb_spec t' t); [congruence|reflexivity].
      * apply IH.
Qed.

Lemma shows_on_add_day d d' t ep ws :
  shows_on d (add_day d' t ep ws)
  = if date_eqb d' d then add_show t ep (shows_on d ws) else shows_on d ws.
Proof.
  unfold shows_on.
  induction ws as [|[k sh] ws IH]; cbn [add_day find fst snd].
  - destruct (date_eqb d' d); reflexivity.
  - destruct (date_eqb k d') eqn:Ek; cbn [find fst snd].
    + apply date_eqb_eq in Ek. subst k.
      destruct (date_eqb d' d); reflexivity.
    + destruct (date_eqb k d) eqn:Ekd.
      * apply date_eqb_eq in Ekd. subst k.
        assert (date_eqb d' d = false) as ->; [|reflexivity].
        destruct (date_eqb d' d) eqn:E; trivial.
        apply date_eqb_eq in E. subst. now rewrite date_eqb_refl in Ek.
      * apply IH.
Qed.

Lemma episodes_of_add_day d t d' t' ep ws :
  episodes_of d t (add_day d' t' ep ws)
  = if date_eqb d' d && String.eqb t' t
    then episodes_of d t ws ++ [ep] else episodes_of d t ws.
Proof.
  unfold episodes_of. rewrite shows_on_add_day.
  destruct (date_eqb d' d); cbn [andb]; trivial.
  rewrite find_add_show.
  destruct (String.eqb t' t); trivial.
  destruct (find _ (shows_on d ws)); reflexivity.
Qed.

Lemma show_count_add_show t ep sh :
  show_count (add_show t ep sh) = S (show_count sh).
Proof.
  induction sh as [|[k eps] sh IH]; cbn [add_show show_count fold_right snd].
  - cbn. reflexivity.
  - destruct (String.eqb k t); cbn [show_count fold_right snd].
    + rewrite length_app. cbn [List.length]. fold (show_count sh). lia.
    + fold (show_count (add_show t ep sh)). fold (show_count sh). rewrite IH. lia.
Qed.

Lemma episode_count_add_day d t ep ws :
  episode_count (add_day d t ep ws) = S (episode_count ws).
Proof.
  induction ws as [|[k sh] ws IH]; cbn [add_day episode_count fold_right snd].
  - reflexivity.
  - destruct (date_eqb k d); cbn [episode_count fold_right snd].
    + rewrite show_count_add_show. reflexivity.
    + fold (episode_count (add_day d t ep ws)). fold (episode_count ws).
      rewrite IH. lia.
Qed.

Lemma add_day_nonempty d t ep ws : add_day d t ep ws <> [].
Proof.
  destruct ws as [|[k sh] ws]; cbn; [discriminate|].
  destruct (date_eqb k d); discriminate.
Qed.

Lemma group_events_app df today l1 l2 :
  group_events df today (l1 ++ l2)
  = fold_left (process_event df today) l2 (group_events df today l1).
Proof. unfold group_events. apply fold_left_app. Qed.

Lemma fold_process_count df today : forall evs st,
  episode_count (weekly_schedule (fold_left (process_event df today) evs st))
  = (episode_count (weekly_schedule st)
     + List.length (filter (included df today) evs))%nat.
Proof.
  induction evs as [|r evs IH]; intros st; cbn [fold_left filter].
  - cbn. lia.
  - rewrite IH. unfold process_event, included.
    destruct (parse_event df today r) as [[[[d t] sn] ep]|]; cbn [List.length weekly_schedule].
    + rewrite episode_count_add_day. lia.
    + reflexivity.
Qed.

Lemma fold_process_keeps df today d t ep : forall evs st,
  In ep (episodes_of d t (weekly_schedule st)) ->
  In ep (episodes_of d t
           (weekly_schedule (fold_left (process_event df today) evs st))).
Proof.
  induction evs as [|r evs IH]; intros st H; cbn [fold_left]; trivial.
  apply IH. unfold process_event.
  destruct (parse_event df today r) as [[[[d' t'] sn] ep']|]; trivial.
  cbn [weekly_schedule]. rewrite episodes_of_add_day.
  destruct (date_eqb d' d && String.eqb t' t); trivial.
  apply in_or_app. now left.
Qed.

Lemma parse_event_splits today r d :
  fromisoformat (start_date r) = Some d -> date_ltb d today = false ->
  parse_event true today r
  = if two_parts (summary r) && two_tokens (summary r)
    then Some (d, nth 0 (split ": " (summary r)) "",
               nth 0 (split "x" (nth 1 (split ": " (summary r)) "")) "",
               nth 1 (split "x" (nth 1 (split ": " (summary r)) "")) "")
    else None.
Proof.
  intros F L. unfold parse_event, two_parts, two_tokens. rewrite F, L.
  cbn [andb].
  destruct (split ": " (summary r)) as [|a [|b [|c l]]]; try reflexivity.
  cbn [nth List.length Nat.eqb andb].
  destruct (split "x" b) as [|x [|y [|z l]]]; reflexivity.
Qed.

(** C5 (amended): a record of the week's range is in the grouped view
    exactly when its summary, split at every occurrence of ": ", gives two
    parts and the second part, split at every "x", gives two tokens: such a
    record adds its episode token under its date and title, and any other
    record leaves the whole loop state as if it were not there. *)
Theorem C5_weekly_inclusion (today sunday : date) (s : store)
    (pre post : list row) (r : row) :
  check_date_fields today = true -> iso_store s = true ->
  week_events today sunday s = pre ++ r :: post ->
  let without := group_events true today (pre ++ post) in
  let st := group_events true today (pre ++ r :: post) in
  if two_parts (summary r) && two_tokens (summary r)
  then exists d,
      fromisoformat (start_date r) = Some d
      /\ In (nth 1 (split "x" (nth 1 (split ": " (summary r)) "")) "")
            (episodes_of d (nth 0 (split ": " (summary r)) "")
                         (weekly_schedule st))
      /\ episode_count (weekly_schedule st)
         = S (episode_count (weekly_schedule without))
  else st = without.
Proof.
  intros Vt Hs He.
  assert (Hr : In r (week_events today sunday s))
    by (rewrite He; apply in_or_app; right; now left).
  destruct (week_event_date today sunday s Vt Hs r Hr) as (d & F & L).
  pose proof (parse_event_splits today r d F L) as P.
  assert (PE : forall st,
             process_event true today st r
             = if two_parts (summary r) && two_tokens (summary r)
               then mkstate
                      (add_day d (nth 0 (split ": " (summary r)) "")
                         (nth 1 (split "x" (nth 1 (split ": " (summary r)) "")) "")
                         (weekly_schedule st))
                      (Some (nth 0 (split "x" (nth 1 (split ": " (summary r)) "")) ""))
               else st).
  { intros st. unfold process_event. rewrite P.
    destruct (two_parts (summary r) && two_tokens (summary r)); reflexivity. }
  cbv zeta. rewrite !group_events_app. cbn [fold_left]. rewrite PE.
  destruct (two_parts (summary r) && two_tokens (summary r)).
  - exists d. split; [exact F|]. split.
    + apply fold_process_keeps. cbn [weekly_schedule].
      rewrite episodes_of_add_day, date_eqb_refl, String.eqb_refl.
      apply in_or_app. right. now left.
    + rewrite !fold_process_count. cbn [weekly_schedule].
      rewrite episode_count_add_day. lia.
  - reflexivity.
Qed.

Lemma C5_weekly_inclusion_witness :
  let good := mkrow "1" "Show A: 2x05" "2024-05-10" in
  let bad := mkrow "9" "Malformed Entry" "2024-05-10" in
  group_events true (mkdate 2024 5 9) ([good] ++ bad :: [])
  = group_events true (mkdate 2024 5 9) ([good] ++ []).
Proof.
  exact (C5_weekly_inclusion (mkdate 2024 5 9) (mkdate 2024 5 12)
           [mkrow "1" "Show A: 2x05" "2024-05-10";
            mkrow "9" "Malformed Entry" "2024-05-10"]
           [mkrow "1" "Show A: 2x05" "2024-05-10"] []
           (mkrow "9" "Malformed Entry" "2024-05-10")
           eq_refl eq_refl eq_refl).
Defined.

(** C5, as stated, fails on a summary with two separators: split once it
    has two parts and its second part two tokens, yet the loop skips it. *)
Lemma C5_split_once_counterexample :
  let r := mkrow "1" "Star Trek: Discovery: 1x02" "2024-05-10" in
  let today := mkdate 2024 5 9 in
  week_events today (mkdate 2024 5 12) [r] = [r]
  /\ SpecReading.two_parts_once (summary r)
     && SpecReading.two_tokens_once (summary r) = true
  /\ group_events true today [r] = init_state
  /\ send_weekly_schedule today [r] = NOTHING_SCHEDULED.
Proof. cbv zeta. repeat split; vm_compute; reflexivity. Qed.

(** *** The season shown *)

Lemma fold_season df today : forall evs st,
  season (fold_left (process_event df today) evs st)
  = fold_left (fun acc r =>
                 match parse_event df today r with
                 | Some (_, _, sn, _) => Some sn
                 | None => acc
                 end) evs (season st).
Proof.
  induction evs as [|r evs IH]; intros st; cbn [fold_left]; trivial.
  rewrite IH. f_equal. unfold process_event.
  destruct (parse_event df today r) as [[[[d t] sn] ep]|]; reflexivity.
Qed.

Lemma fold_season_bound df today : forall evs st,
  (weekly_schedule st = [] <-> season st = None) ->
  let st' := fold_left (process_event df today) evs st in
  weekly_schedule st' = [] <-> season st' = None.
Proof.
  induction evs as [|r evs IH]; intros st H; cbn [fold_left]; trivial.
  apply IH. unfold process_event.
  destruct (parse_event df today r) as [[[[d t] sn] ep]|]; trivial.
  cbn [weekly_schedule season]. split; [|discriminate].
  intros E. now apply add_day_nonempty in E.
Qed.

Lemma group_events_season df today evs :
  season (group_events df today evs) = last_season df today evs
  /\ (weekly_schedule (group_events df today evs) = []
      <-> last_season df today evs = None).
Proof.
  assert (E : season (group_events df today evs) = last_season df today evs)
    by apply fold_season.
  split; trivial. rewrite <- E.
  apply (fold_season_bound df today evs init_state). cbn. tauto.
Qed.

(** C6: every show header of the weekly message carries the one value the
    variable season holds when the grouping loop ends, the season of the
    last record that was grouped; so a show can be printed with the season
    of another show's record.  (The unbound-variable case never arises.) *)
Theorem C6_shared_season_variable :
  (forall today s,
      send_weekly_schedule today s
      = match week_end today with
        | None => ERROR_REPLY
        | Some sunday =>
            let events := week_events today sunday s in
            match last_season true today events with
            | Some sn => render sn (weekly_schedule (group_events true today events))
            | None => NOTHING_SCHEDULED
            end
        end)
  /\ parse_event true (mkdate 2024 5 9) (mkrow "1" "Show A: 1x01" "2024-05-10")
     = Some (mkdate 2024 5 10, "Show A", "1", "01")
  /\ last_season true (mkdate 2024 5 9) two_shows = Some "3"
  /\ contains "- Show A (Season 3)"
       (send_weekly_schedule (mkdate 2024 5 9) two_shows) = true
  /\ contains "- Show A (Season 1)"
       (send_weekly_schedule (mkdate 2024 5 9) two_shows) = false.
Proof.
  split.
  - intros today s. unfold send_weekly_schedule.
    destruct (week_end today) as [sunday|]; trivial.
    cbv zeta.
    destruct (group_events_season true today (week_events today sunday s))
      as [E H].
    destruct (week_events today sunday s) as [|r evs] eqn:Ev; [reflexivity|].
    rewrite E.
    destruct (last_season true today (r :: evs)) as [sn|].
    + destruct (weekly_schedule (group_events true today (r :: evs))); trivial.
      destruct H as [H _]. discriminate (H eq_refl).
    + destruct H as [_ H]. now rewrite (H eq_refl).
  - repeat split; vm_compute; reflexivity.
Qed.

(** *** The scenario of section 8 *)

(** C7, as stated, fails: 10 May 2024 is a Friday, and the message has no
    Thursday heading. *)
Lemma C7_thursday_counterexample :
  weekday (mkdate 2024 5 9) = 3
  /\ weekday (mkdate 2024 5 10) = 4
  /\ contains "Thursday, May 10"
       (send_weekly_schedule (mkdate 2024 5 9) scenario) = false.
Proof. repeat split; vm_compute; reflexivity. Qed.

(** C7 (amended): in the scenario the weekly message has one heading,
    "Friday, May 10", listing "Show A" with the episodes shown as 5 and 6;
    the grouped view itself keeps the tokens "05" and "06". *)
Theorem C7_scenario_render :
  week_end (mkdate 2024 5 9) = Some (mkdate 2024 5 12)
  /\ weekly_schedule (group_events true (mkdate 2024 5 9) scenario)
     = [(mkdate 2024 5 10, [("Show A", ["05"; "06"])])]
  /\ send_weekly_schedule (mkdate 2024 5 9) scenario = scenario_message
  /\ contains "Friday, May 10" scenario_message = true
  /\ (forall sn title eps,
        render_show sn (title, eps)
        = ("- " ++ title ++ " (Season " ++ sn ++ ")" ++ nl
           ++ String.concat ""
                (map (fun e => "  • Episode " ++ lstrip0 e ++ nl) eps))%string).
Proof.
  split; [vm_compute; reflexivity|].
  split; [vm_compute; reflexivity|].
  split; [vm_compute; reflexivity|].
  split; [vm_compute; reflexivity|].
  reflexivity.
Qed.

End WeeklyFacts.

(** * Strings: splitting and stripping *)

Module PyStrFacts.
Import PyStr Views.

Lemma str_app_nil_r s : (s ++ "")%string = s.
Proof. induction s; cbn; congruence. Qed.

Lemma str_app_assoc a b c : ((a ++ b) ++ c)%string = (a ++ (b ++ c))%string.
Proof. induction a; cbn; congruence. Qed.

Lemma prefix_drop : forall sep s,
  String.prefix sep s = true ->
  s = (sep ++ drop (String.length sep) s)%string
  /\ (String.length sep <= String.length s)%nat.
Proof.
  induction sep as [|a sep IH]; intros s H; cbn [String.length drop append].
  - split; [reflexivity|lia].
  - destruct s as [|c s]; cbn in H; [discriminate|].
    destruct (ascii_dec a c) as [->|]; [|discriminate].
    destruct (IH s H) as [E L]. cbn [String.length drop]. split; [congruence|lia].
Qed.

Lemma split_go_join a sep' : forall s skip cur,
  (skip <= String.length s)%nat ->
  let sep := String a sep' in
  split_go sep skip cur s <> []
  /\ String.concat sep (split_go sep skip cur s) = (cur ++ drop skip s)%string.
Proof.
  cbv zeta.
  induction s as [|c s IH]; intros skip cur Hs.
  - cbn in Hs. assert (skip = O) as -> by lia. cbn.
    split; [discriminate|now rewrite str_app_nil_r].
  - cbn [split_go]. destruct skip as [|k].
    + destruct (String.prefix (String a sep') (String c s)) eqn:P.
      * split; [discriminate|].
        destruct (prefix_drop _ _ P) as [E L].
        cbn [String.length Nat.pred drop] in *.
        destruct (IH (String.length sep') EmptyString ltac:(lia)) as [N J].
        destruct (split_go (String a sep') (String.length sep') "" s) as [|x l] eqn:G;
          [congruence|].
        cbn [String.concat]. cbn [String.concat] in J. rewrite J.
        cbn [append]. cbn [append] in E. injection E as -> E.
        now rewrite <- E.
      * destruct (IH O (cur ++ String c EmptyString)%string ltac:(lia)) as [N J].
        split; trivial. rewrite J. cbn [drop]. rewrite str_app_assoc. reflexivity.
    + cbn [String.length] in Hs. apply IH. lia.
Qed.

Lemma split_nonempty a sep' s : split (String a sep') s <> [].
Proof. apply (split_go_join a sep' s O EmptyString). lia. Qed.

Lemma join_split a sep' s :
  String.concat (String a sep') (split (String a sep') s) = s.
Proof.
  destruct (split_go_join a sep' s O EmptyString ltac:(lia)) as [_ J].
  exact J.
Qed.

Lemma split_two sep_a sep' s x y :
  split (String sep_a sep') s = [x; y] ->
  s = (x ++ String sep_a sep' ++ y)%string.
Proof.
  intros H. rewrite <- (join_split sep_a sep' s), H. reflexivity.
Qed.

Lemma contains_cons needle c s :
  contains needle (String c s) = false ->
  String.prefix needle (String c s) = false /\ contains needle s = false.
Proof. cbn [contains]. apply orb_false_iff. Qed.

Lemma split_go_absent sep : forall s cur,
  contains sep s = false -> split_go sep O cur s = [(cur ++ s)%string].
Proof.
  induction s as [|c s IH]; intros cur H.
  - cbn. now rewrite str_app_nil_r.
  - apply contains_cons in H. destruct H as [P H].
    cbn [split_go]. rewrite P, IH by trivial.
    now rewrite str_app_assoc.
Qed.

Lemma split_absent sep s : contains sep s = false -> split sep s = [s].
Proof. intros H. unfold split. now rewrite split_go_absent. Qed.

(** The separator of line 166 has two different bytes, so no occurrence
    can begin inside a part and end inside the separator that follows. *)
Lemma split_go_colon b : forall t cur,
  contains ": " t = false ->
  split_go ": " O cur (t ++ ": " ++ b)
  = (cur ++ t)%string :: split_go ": " O EmptyString b.
Proof.
  induction t as [|c t IH]; intros cur H.
  - cbn [append]. rewrite str_app_nil_r. cbn - [split_go].
    cbn [split_go]. cbn [String.prefix].
    destruct (ascii_dec ":" ":") as [_|N]; [|congruence].
    destruct (ascii_dec " " " ") as [_|N]; [|congruence].
    cbn. destruct b; reflexivity.
  - apply contains_cons in H. destruct H as [P H].
    change (String c t ++ ": " ++ b)%string with (String c (t ++ ": " ++ b)).
    cbn [split_go].
    assert (Q : String.prefix ": " (String c (t ++ ": " ++ b)) = false).
    { destruct t as [|c2 t]; cbn [append String.prefix] in *.
      - destruct (ascii_dec ":" c); reflexivity.
      - destruct (ascii_dec ":" c); trivial.
        destruct (ascii_dec " " c2); trivial.
        destruct t; discriminate. }
    rewrite Q, IH by trivial. now rewrite str_app_assoc.
Qed.

Lemma split_go_x b : forall t cur,
  contains "x" t = false ->
  split_go "x" O cur (t ++ "x" ++ b)
  = (cur ++ t)%string :: split_go "x" O EmptyString b.
Proof.
  induction t as [|c t IH]; intros cur H.
  - cbn [append]. rewrite str_app_nil_r. cbn [split_go String.prefix].
    destruct (ascii_dec "x" "x") as [_|N]; [|congruence].
    cbn. destruct b; reflexivity.
  - apply contains_cons in H. destruct H as [P H].
    change (String c t ++ "x" ++ b)%string with (String c (t ++ "x" ++ b)).
    cbn [split_go].
    assert (Q : String.prefix "x" (String c (t ++ "x" ++ b)) = false).
    { cbn [String.prefix] in *. destruct (ascii_dec "x" c); trivial.
      destruct t; discriminate. }
    rewrite Q, IH by trivial. now rewrite str_app_assoc.
Qed.

Lemma split_colon_two t b :
  contains ": " t = false -> contains ": " b = false ->
  split ": " (t ++ ": " ++ b) = [t; b].
Proof.
  intros Ht Hb. unfold split. rewrite split_go_colon by trivial.
  now rewrite split_go_absent.
Qed.

Lemma split_x_two a b :
  contains "x" a = false -> contains "x" b = false ->
  split "x" (a ++ "x" ++ b) = [a; b].
Proof.
  intros Ha Hb. unfold split. rewrite split_go_x by trivial.
  now rewrite split_go_absent.
Qed.

Lemma prefix_app_l n : forall a b,
  String.prefix n a = true -> String.prefix n (a ++ b) = true.
Proof.
  induction n as [|c n IH]; intros a b H.
  - destruct (a ++ b)%string; reflexivity.
  - destruct a as [|x a]; cbn [String.prefix append] in *; [discriminate|].
    destruct (ascii_dec c x); [|discriminate]. now apply IH.
Qed.

Lemma prefix_self n b : String.prefix n (n ++ b) = true.
Proof.
  induction n as [|c n IH]; cbn [append String.prefix].
  - destruct b; reflexivity.
  - destruct (ascii_dec c c); [exact IH|congruence].
Qed.

Lemma contains_self n b : contains n (n ++ b) = true.
Proof.
  destruct (n ++ b)%string eqn:E; cbn [contains]; rewrite <- E, prefix_self;
    reflexivity.
Qed.

Lemma contains_refl n : contains n n = true.
Proof.
  pose proof (contains_self n EmptyString) as H.
  now rewrite str_app_nil_r in H.
Qed.

Lemma contains_app_l n : forall a b,
  contains n a = true -> contains n (a ++ b) = true.
Proof.
  induction a as [|x a IH]; intros b H.
  - cbn [contains] in H. rewrite orb_false_r in H.
    destruct n; [|discriminate]. cbn [append].
    destruct b; cbn [contains]; reflexivity.
  - cbn [contains] in H. apply orb_true_iff in H.
    change (String x a ++ b)%string with (String x (a ++ b)).
    cbn [contains]. apply orb_true_iff. destruct H as [H|H].
    + left. now apply (prefix_app_l n (String x a) b).
    + right. now apply IH.
Qed.

Lemma contains_app_r n : forall a b,
  contains n b = true -> contains n (a ++ b) = true.
Proof.
  induction a as [|x a IH]; intros b H; [exact H|].
  change (String x a ++ b)%string with (String x (a ++ b)).
  cbn [contains]. rewrite IH by trivial. apply orb_true_r.
Qed.

Lemma contains_concat n x : forall l,
  In x l -> contains n x = true -> contains n (String.concat "" l) = true.
Proof.
  induction l as [|y l IH]; intros Hin H; [destruct Hin|].
  destruct Hin as [->|Hin].
  - destruct l as [|z l]; cbn [String.concat]; trivial.
    now apply contains_app_l.
  - destruct l as [|z l]; [destruct Hin|]. cbn [String.concat].
    apply contains_app_r. cbn [append]. now apply IH.
Qed.

(** X18: what is printed for an episode is the token without its leading
    zeros: the token is a run of zeros followed by the printed text, which
    does not start with a zero; a token of zeros only prints as the empty
    text. *)
Theorem X18_episode_without_leading_zeros (token : string) :
  exists n,
    token = (zeros n ++ lstrip0 token)%string
    /\ String.prefix "0" (lstrip0 token) = false
    /\ (lstrip0 token = EmptyString <-> token = zeros n).
Proof.
  induction token as [|c t (n & E & P & Z)].
  - exists O. cbn. tauto.
  - cbn [lstrip0]. destruct (Ascii.eqb_spec c "0") as [->|N].
    + exists (S n). cbn [zeros append]. split; [congruence|]. split; trivial.
      rewrite Z. split; [congruence|]. now intros [= ->].
    + exists O. cbn [zeros append]. split; trivial. split.
      * cbn [String.prefix]. destruct (ascii_dec "0" c); [congruence|reflexivity].
      * split; discriminate.
Qed.

End PyStrFacts.

(** * More on the synchronisation *)

Module SyncExtras.
Import Calendar Store Sync Notify CalendarFacts StoreFacts.

Lemma has_uid_In u s : has_uid u s = true <-> In u (map uid s).
Proof.
  unfold has_uid. rewrite existsb_exists, in_map_iff.
  split; intros (r & H1 & H2).
  - apply String.eqb_eq in H2. eauto.
  - exists r. split; trivial. now apply String.eqb_eq.
Qed.

Lemma has_uid_insert_eq u s r :
  has_uid u (insert_or_ignore s r)
  = has_uid u s || String.eqb (uid r) u.
Proof.
  unfold insert_or_ignore. destruct (has_uid (uid r) s) eqn:E.
  - destruct (String.eqb_spec (uid r) u) as [<-|]; [now rewrite E|].
    now rewrite orb_false_r.
  - rewrite has_uid_app. unfold has_uid at 2. cbn. now rewrite orb_false_r.
Qed.

Lemma insert_events_appends medium : forall evs i c log,
  exists added,
    committed (fst (fst (insert_events medium i evs c log)))
    = committed c ++ added
    /\ incl added (pending c ++ reached evs).
Proof.
  induction evs as [|e evs IH]; intros i c log; cbn [insert_events reached].
  - exists []. rewrite app_nil_r. split; [reflexivity|intros x []].
  - destruct (extract e) as [r|].
    + destruct (store_event_appends (medium i) c r) as (a0 & E0 & I0 & P0).
      destruct (IH (S i) (store_event (medium i) c r)
                   (if failed (medium i) then log ++ [InsertFailed (uid r)]
                    else log)) as (a & E & I).
      exists (a0 ++ a). rewrite E, E0, app_assoc. split; [reflexivity|].
      apply incl_app.
      * intros x Hx. apply I0 in Hx. apply in_app_or in Hx.
        apply in_or_app. destruct Hx as [Hx|[<-|[]]]; [now left|].
        right. now left.
      * intros x Hx. apply I in Hx. apply in_app_or in Hx.
        destruct Hx as [Hx|Hx].
        -- apply P0 in Hx. apply in_app_or in Hx.
           apply in_or_app. destruct Hx as [Hx|[<-|[]]]; [now left|].
           right. now left.
        -- apply in_or_app. right. now right.
    + exists []. rewrite app_nil_r. split; [reflexivity|intros x []].
Qed.

Lemma update_schedule_appends f medium s :
  exists added,
    fst (update_schedule f medium s) = s ++ added
    /\ (forall r, In r added ->
          match f with Parsed evs => In r (reached evs) | _ => False end).
Proof.
  rewrite update_schedule_store. destruct f.
  - exists []. rewrite app_nil_r. split; [reflexivity|intros r []].
  - exists []. rewrite app_nil_r. split; [reflexivity|intros r []].
  - destruct (insert_events_appends medium events 0%nat (mkconn s []) [Downloaded])
      as (a & E & I). exists a. split; [exact E|exact I].
Qed.

(** X1: a run of update_schedule only appends: the rows already in the
    table stay as they are, in place, whatever the feed and the storage
    failures; what is added are records read from the feed; a stored uid
    keeps finding the row it found before. *)
Theorem X1_sync_only_appends (f : feed) (medium : nat -> outcome) (s : store) :
  exists added,
    fst (update_schedule f medium s) = s ++ added
    /\ (forall r, In r added ->
          match f with Parsed evs => In r (reached evs) | _ => False end)
    /\ (forall u, has_uid u s = true ->
          find_uid u (fst (update_schedule f medium s)) = find_uid u s).
Proof.
  destruct (update_schedule_appends f medium s) as (added & E & I).
  exists added. rewrite E.
  split; [reflexivity|]. split; [exact I|].
  intros u Hu. now apply find_uid_app_present.
Qed.

Lemma nodup_insert s r :
  NoDup (map uid s) -> NoDup (map uid (insert_or_ignore s r)).
Proof.
  intros H. unfold insert_or_ignore.
  destruct (has_uid (uid r) s) eqn:E; trivial.
  rewrite map_app. cbn [map].
  apply (Permutation_NoDup (l := uid r :: map uid s)).
  - apply Permutation_cons_append.
  - constructor; trivial. rewrite <- has_uid_In, E. discriminate.
Qed.

Lemma nodup_prefix (s t : store) :
  NoDup (map uid (s ++ t)) -> NoDup (map uid s).
Proof. rewrite map_app. apply NoDup_app_remove_r. Qed.

Lemma nodup_view_store_event o c r :
  NoDup (map uid (view c)) -> NoDup (map uid (view (store_event o c r))).
Proof.
  intros H. destruct o; cbn [store_event].
  - rewrite view_commit, view_execute. now apply nodup_insert.
  - exact H.
  - rewrite view_execute. now apply nodup_insert.
  - rewrite view_rollback. now apply (nodup_prefix _ (pending c)).
Qed.

Lemma nodup_insert_events medium : forall evs i c log,
  NoDup (map uid (view c)) ->
  NoDup (map uid (view (fst (fst (insert_events medium i evs c log))))).
Proof.
  induction evs as [|e evs IH]; intros i c log H; cbn [insert_events]; trivial.
  destruct (extract e) as [r|]; trivial.
  apply IH. now apply nodup_view_store_event.
Qed.

(** X2: the uid column stays free of duplicates through every run of
    update_schedule, whatever the feed (which may repeat uids) and the
    storage failures. *)
Theorem X2_sync_keeps_uids_unique (f : feed) (medium : nat -> outcome)
    (s : store) :
  NoDup (map uid s) -> NoDup (map uid (fst (update_schedule f medium s))).
Proof.
  intros H. rewrite update_schedule_store. destruct f; trivial.
  apply (nodup_prefix _ (pending (fst (fst
           (insert_events medium 0 events (mkconn s []) [Downloaded]))))).
  apply (nodup_insert_events medium events 0%nat (mkconn s []) [Downloaded]).
  now rewrite view_fresh.
Qed.

Lemma X2_sync_keeps_uids_unique_witness :
  NoDup (map uid (fst (update_schedule
                         (Parsed (Examples.feed3 ++ Examples.feed3))
                         no_failure Examples.scenario))).
Proof.
  apply (X2_sync_keeps_uids_unique
           (Parsed (Examples.feed3 ++ Examples.feed3)) no_failure
           Examples.scenario).
  cbn. repeat constructor; cbn; intuition discriminate.
Defined.

Lemma insert_events_flag medium : forall evs i c log,
  snd (insert_events medium i evs c log)
  = Nat.eqb (List.length (reached evs)) (List.length evs).
Proof.
  induction evs as [|e evs IH]; intros i c log; cbn [insert_events reached];
    trivial.
  destruct (extract e) as [r|]; cbn [List.length].
  - rewrite IH. reflexivity.
  - reflexivity.
Qed.

Lemma insert_events_log medium x : forall evs i c log,
  In x (snd (fst (insert_events medium i evs c log))) ->
  In x log \/ exists r, In r (reached evs) /\ x = InsertFailed (uid r).
Proof.
  induction evs as [|e evs IH]; intros i c log H; cbn [insert_events reached] in *.
  - now left.
  - destruct (extract e) as [r|]; [|now left].
    apply IH in H. destruct H as [H|(r' & H1 & H2)].
    + destruct (failed (medium i)); [|now left].
      apply in_app_or in H. destruct H as [H|[<-|[]]]; [now left|].
      right. exists r. split; [now left|reflexivity].
    + right. exists r'. split; [now right|trivial].
Qed.

Lemma insert_events_stop medium : forall pre e post i c log,
  extract e = None ->
  fst (fst (insert_events medium i (pre ++ e :: post) c log))
  = fst (fst (insert_events medium i pre c log)).
Proof.
  induction pre as [|p pre IH]; intros e post i c log He;
    cbn [app insert_events].
  - now rewrite He.
  - destruct (extract p); trivial. now apply IH.
Qed.

Lemma reached_stop : forall pre e post,
  extract e = None -> reached (pre ++ e :: post) = reached pre.
Proof.
  induction pre as [|p pre IH]; intros e post He; cbn [app reached].
  - now rewrite He.
  - destruct (extract p); trivial. f_equal. now apply IH.
Qed.

Lemma reached_length evs : (List.length (reached evs) <= List.length evs)%nat.
Proof.
  induction evs as [|e evs IH]; cbn [reached List.length]; [lia|].
  destruct (extract e); cbn [List.length]; lia.
Qed.

(** X3: a component whose uid, start or summary cannot be read (a property
    is missing, or the start is a plain date) ends the run at that point:
    the table is what the components before it give, nothing after it is
    inserted, and the log closes with the update error instead of the
    success entry. *)
Theorem X3_unreadable_component_stops_sync
    (medium : nat -> outcome) (s : store) (pre post : list vevent) (e : vevent) :
  extract e = None ->
  let res := update_schedule (Parsed (pre ++ e :: post)) medium s in
  fst res = fst (update_schedule (Parsed pre) medium s)
  /\ (forall r, In r (fst res) -> In r s \/ In r (reached pre))
  /\ In UpdateError (snd res)
  /\ ~ In Updated (snd res).
Proof.
  intros He. cbv zeta. split; [|split].
  - rewrite !update_schedule_store. f_equal. now apply insert_events_stop.
  - intros r Hr.
    destruct (update_schedule_appends (Parsed (pre ++ e :: post)) medium s)
      as (added & E & I).
    rewrite E in Hr. apply in_app_or in Hr. destruct Hr as [Hr|Hr]; [now left|].
    right. apply I in Hr. now rewrite reached_stop in Hr.
  - cbn [update_schedule].
    pose proof (insert_events_flag medium (pre ++ e :: post) 0%nat
                  (mkconn s []) [Downloaded]) as F.
    pose proof (insert_events_log medium Updated (pre ++ e :: post) 0%nat
                  (mkconn s []) [Downloaded]) as L.
    destruct (insert_events medium 0 (pre ++ e :: post) (mkconn s []) [Downloaded])
      as [[c log] flag]. cbn [fst snd] in *.
    assert (flag = false) as ->.
    { rewrite F, reached_stop by trivial. apply Nat.eqb_neq.
      pose proof (reached_length pre). rewrite length_app. cbn [List.length]. lia. }
    cbn [snd]. split.
    + apply in_or_app. right. now left.
    + intros H. apply in_app_or in H. destruct H as [H|[H|[]]]; [|discriminate].
      apply L in H. destruct H as [[H|[]]|(r & _ & H)]; discriminate.
Qed.

Lemma X3_unreadable_component_stops_sync_witness :
  let date_only :=
    mkvevent (Some "2") (Some (DtDate (mkdate 2024 5 10))) (Some "Show A: 2x06") in
  let first := nth 0 Examples.feed3 date_only in
  let last := nth 2 Examples.feed3 date_only in
  fst (update_schedule (Parsed ([first] ++ date_only :: [last])) no_failure [])
  = fst (update_schedule (Parsed [first]) no_failure []).
Proof.
  cbv zeta.
  exact (proj1 (X3_unreadable_component_stops_sync no_failure []
                  [nth 0 Examples.feed3
                     (mkvevent (Some "2") (Some (DtDate (mkdate 2024 5 10)))
                               (Some "Show A: 2x06"))]
                  [nth 2 Examples.feed3
                     (mkvevent (Some "2") (Some (DtDate (mkdate 2024 5 10)))
                               (Some "Show A: 2x06"))]
                  (mkvevent (Some "2") (Some (DtDate (mkdate 2024 5 10)))
                            (Some "Show A: 2x06"))
                  eq_refl)).
Defined.

(** X4: ingestion writes ISO dates only: when every start in the feed is a
    date the date type admits, a table of ISO dates is still one after the
    run, whatever the storage failures. *)
Theorem X4_sync_keeps_iso_dates (evs : list vevent) (medium : nat -> outcome)
    (s : store) :
  valid_feed evs = true -> iso_store s = true ->
  iso_store (fst (update_schedule (Parsed evs) medium s)) = true.
Proof.
  intros Hv Hs. now apply (update_schedule_iso (Parsed evs)).
Qed.

Lemma X4_sync_keeps_iso_dates_witness :
  iso_store (fst (update_schedule (Parsed Examples.feed3) no_failure
                    Examples.scenario)) = true.
Proof.
  exact (X4_sync_keeps_iso_dates Examples.feed3 no_failure Examples.scenario
           eq_refl eq_refl).
Defined.

Lemma insert_events_uids : forall evs i s log u,
  has_uid u (committed (fst (fst
    (insert_events no_failure i evs (mkconn s []) log))))
  = has_uid u s || has_uid u (reached evs).
Proof.
  induction evs as [|e evs IH]; intros i s log u; cbn [insert_events reached].
  - cbn. now rewrite orb_false_r.
  - destruct (extract e) as [r|].
    + unfold no_failure at 1 2. cbn [failed].
      rewrite store_event_done_fresh, IH, has_uid_insert_eq.
      unfold has_uid at 4. cbn [existsb]. fold (has_uid u (reached evs)).
      now rewrite orb_assoc.
    + cbn. now rewrite orb_false_r.
Qed.

(** X5: after a run without storage failures the table knows a uid exactly
    when it knew it before or the uid is among the records read from the
    feed. *)
Theorem X5_uids_after_clean_sync (evs : list vevent) (s : store) (u : string) :
  has_uid u (fst (update_schedule (Parsed evs) no_failure s))
  = has_uid u s || has_uid u (reached evs).
Proof.
  rewrite update_schedule_store. apply insert_events_uids.
Qed.

Lemma insert_events_find_keeps medium u : forall evs i c log,
  has_uid u (committed c) = true ->
  find_uid u (committed (fst (fst (insert_events medium i evs c log))))
  = find_uid u (committed c).
Proof.
  intros evs i c log H.
  destruct (insert_events_appends medium evs i c log) as (a & E & _).
  rewrite E. now apply find_uid_app_present.
Qed.

Lemma view_store_event_absent u o c r :
  has_uid u (view c) = false -> String.eqb (uid r) u = false ->
  has_uid u (view (store_event o c r)) = false.
Proof.
  intros Hc Hr. destruct o; cbn [store_event].
  - now rewrite view_commit, view_execute, has_uid_insert_eq, Hc, Hr.
  - exact Hc.
  - now rewrite view_execute, has_uid_insert_eq, Hc, Hr.
  - rewrite view_rollback. unfold view in Hc. rewrite has_uid_app in Hc.
    now apply orb_false_iff in Hc.
Qed.

Lemma insert_events_first medium : forall evs pre r post i c log,
  reached evs = pre ++ r :: post ->
  has_uid (uid r) (view c) = false -> has_uid (uid r) pre = false ->
  medium (i + List.length pre)%nat = Done ->
  find_uid (uid r) (committed (fst (fst (insert_events medium i evs c log))))
  = Some r.
Proof.
  induction evs as [|e evs IH]; intros pre r post i c log Hr Hs Hp Hf;
    cbn [reached] in Hr.
  - destruct pre; discriminate.
  - cbn [insert_events]. destruct (extract e) as [r0|]; [|destruct pre; discriminate].
    destruct pre as [|p pre]; cbn [app List.length] in *.
    + injection Hr as -> Hr. rewrite Nat.add_0_r in Hf. rewrite Hf.
      rewrite insert_events_find_keeps by apply store_event_done_stores.
      cbn [store_event]. unfold commit. cbn [committed].
      rewrite view_execute, insert_absent by trivial.
      rewrite find_uid_app_absent by trivial.
      unfold find_uid. cbn. now rewrite String.eqb_refl.
    + injection Hr as -> Hr.
      unfold has_uid in Hp. cbn [existsb] in Hp. apply orb_false_iff in Hp.
      destruct Hp as [Hp0 Hp].
      replace (i + S (List.length pre))%nat with (S i + List.length pre)%nat in Hf by lia.
      apply (IH pre r post); trivial.
      now apply view_store_event_absent.
Qed.

Lemma update_schedule_first evs medium s pre post r :
  reached evs = pre ++ r :: post ->
  has_uid (uid r) s = false -> has_uid (uid r) pre = false ->
  medium (List.length pre) = Done ->
  find_uid (uid r) (fst (update_schedule (Parsed evs) medium s)) = Some r.
Proof.
  intros Hr Hs Hp Hf. rewrite update_schedule_store.
  apply (insert_events_first medium evs pre r post 0%nat); trivial.
  now rewrite view_fresh.
Qed.

(** X6: the first record of the feed with a uid the table does not know is
    stored as it is (unless the storage fails on it): afterwards the uid
    finds that record, whatever records with the same uid follow in the
    feed. *)
Theorem X6_first_record_of_uid_is_stored
    (evs : list vevent) (medium : nat -> outcome) (s : store)
    (pre post : list row) (r : row) :
  reached evs = pre ++ r :: post ->
  has_uid (uid r) s = false -> has_uid (uid r) pre = false ->
  medium (List.length pre) = Done ->
  find_uid (uid r) (fst (update_schedule (Parsed evs) medium s)) = Some r.
Proof. exact (update_schedule_first evs medium s pre post r). Qed.

Lemma X6_first_record_of_uid_is_stored_witness :
  find_uid "2"
    (fst (update_schedule
            (Parsed (Examples.feed3
                     ++ [mkvevent (Some "2") (Some (DtDateTime (mkdate 2024 6 1)))
                                  (Some "Show A: 9x09")]))
            no_failure []))
  = Some (mkrow "2" "Show A: 2x06" "2024-05-10").
Proof.
  exact (X6_first_record_of_uid_is_stored
           (Examples.feed3
            ++ [mkvevent (Some "2") (Some (DtDateTime (mkdate 2024 6 1)))
                         (Some "Show A: 9x09")])
           no_failure []
           [mkrow "1" "Show A: 2x05" "2024-05-10"]
           [mkrow "3" "Show B: 1x01" "2024-05-11";
            mkrow "2" "Show A: 9x09" "2024-06-01"]
           (mkrow "2" "Show A: 2x06" "2024-05-10")
           eq_refl eq_refl eq_refl eq_refl).
Defined.

(** X10: an event read from the feed for the first time and dated tomorrow
    gets its reminder from the next send_notifications on the table the run
    leaves. *)
Theorem X10_synced_event_is_notified
    (evs : list vevent) (medium : nat -> outcome) (s : store)
    (pre post : list row) (r : row) (today tomorrow : date) :
  reached evs = pre ++ r :: post ->
  has_uid (uid r) s = false -> has_uid (uid r) pre = false ->
  medium (List.length pre) = Done ->
  add_days today 1 = Some tomorrow -> start_date r = isoformat tomorrow ->
  In (uid r, message_text (summary r))
     (send_notifications today (fst (update_schedule (Parsed evs) medium s))).
Proof.
  intros Hr Hs Hp Hf Ht Hd.
  pose proof (update_schedule_first evs medium s pre post r Hr Hs Hp Hf) as F.
  apply find_some in F. destruct F as [Hin _].
  unfold send_notifications. rewrite Ht.
  apply (in_map (fun r => (uid r, message_text (summary r)))).
  unfold select_on. apply filter_In. split; trivial.
  rewrite Hd. apply String.eqb_refl.
Qed.

Lemma X10_synced_event_is_notified_witness :
  In ("1", message_text "Show A: 2x05")
     (send_notifications (mkdate 2024 5 9)
        (fst (update_schedule (Parsed Examples.feed3) no_failure []))).
Proof.
  exact (X10_synced_event_is_notified Examples.feed3 no_failure []
           []
           [mkrow "2" "Show A: 2x06" "2024-05-10";
            mkrow "3" "Show B: 1x01" "2024-05-11"]
           (mkrow "1" "Show A: 2x05" "2024-05-10")
           (mkdate 2024 5 9) (mkdate 2024 5 10)
           eq_refl eq_refl eq_refl eq_refl eq_refl eq_refl).
Defined.

End SyncExtras.

(** * More on the dates and the reminders *)

Module NotifyExtras.
Import Calendar Store PyStr Notify Weekly Views CalendarFacts StoreFacts PyStrFacts.

Lemma toordinal_inj a b :
  check_date_fields a = true -> check_date_fields b = true ->
  toordinal a = toordinal b -> a = b.
Proof.
  intros Va Vb E. apply date_cmp_eq.
  rewrite date_cmp_toordinal, E by assumption. apply Z.compare_refl.
Qed.

Lemma isoformat_inj a b :
  check_date_fields a = true -> check_date_fields b = true ->
  isoformat a = isoformat b -> a = b.
Proof.
  intros Va Vb E. apply date_eqb_eq.
  rewrite <- eqb_isoformat, E by assumption. apply String.eqb_refl.
Qed.

(** X20: the date string that ingestion writes (line 62) is read back by
    the weekly view (line 161) as the same date, and two dates have the
    same string only when they are the same date, so that comparing the
    strings for equality (line 92) is comparing the dates. *)
Theorem X20_date_string_round_trip (a b : date) :
  check_date_fields a = true -> check_date_fields b = true ->
  fromisoformat (isoformat a) = Some a
  /\ (isoformat a = isoformat b <-> a = b)
  /\ String.eqb (isoformat a) (isoformat b) = date_eqb a b.
Proof.
  intros Va Vb. split; [now apply fromisoformat_isoformat|]. split.
  - split; [now apply isoformat_inj|congruence].
  - now apply eqb_isoformat.
Qed.

Lemma X20_date_string_round_trip_witness :
  fromisoformat (isoformat (mkdate 2024 2 29)) = Some (mkdate 2024 2 29).
Proof.
  exact (proj1 (X20_date_string_round_trip (mkdate 2024 2 29) (mkdate 2024 3 1)
                  eq_refl eq_refl)).
Defined.

(** X21: today + 1 day is the next calendar day: it exists for every today
    but 9999-12-31, it is later than today, no date lies between the two,
    and adding the opposite number of days leads back. *)
Theorem X21_tomorrow_is_next_day (today : date) :
  check_date_fields today = true ->
  (add_days today 1 = None <-> today = mkdate 9999 12 31)
  /\ (forall tomorrow, add_days today 1 = Some tomorrow ->
        check_date_fields tomorrow = true
        /\ date_ltb today tomorrow = true
        /\ (forall d, check_date_fields d = true -> date_ltb today d = true ->
                      date_leb tomorrow d = true)
        /\ add_days tomorrow (-1) = Some today).
Proof.
  intros V. pose proof (toordinal_bounds today V) as B. split.
  - split.
    + unfold add_days.
      destruct ((0 <? toordinal today + 1) && (toordinal today + 1 <=? MAXORDINAL))
        eqn:E; [discriminate|]. intros _.
      apply andb_false_iff in E. rewrite Z.ltb_ge, Z.leb_gt in E.
      apply toordinal_inj; trivial.
      change (toordinal (mkdate 9999 12 31)) with MAXORDINAL. lia.
    + intros ->. reflexivity.
  - intros tomorrow E. destruct (add_days_inv _ _ _ V E) as [V' O].
    split; [exact V'|]. split; [|split].
    + unfold date_ltb. rewrite date_cmp_toordinal by assumption.
      replace (toordinal today ?= toordinal tomorrow) with Lt; trivial.
      symmetry. apply Z.compare_lt_iff. lia.
    + intros d Vd L. unfold date_ltb in L. unfold date_leb.
      rewrite date_cmp_toordinal in * by assumption.
      destruct (Z.compare_spec (toordinal today) (toordinal d)); try discriminate.
      destruct (Z.compare_spec (toordinal tomorrow) (toordinal d)); trivial. lia.
    + destruct (add_days_spec tomorrow (-1) V' ltac:(lia)) as (d & E' & Vd & Od).
      rewrite E'. f_equal. apply toordinal_inj; trivial. lia.
Qed.

Lemma X21_tomorrow_is_next_day_witness :
  add_days (mkdate 2024 2 28) 1 = Some (mkdate 2024 2 29)
  /\ add_days (mkdate 2024 2 29) (-1) = Some (mkdate 2024 2 28).
Proof.
  split; [reflexivity|].
  exact (proj2 (proj2 (proj2
           (proj2 (X21_tomorrow_is_next_day (mkdate 2024 2 28) eq_refl)
                  (mkdate 2024 2 29) eq_refl)))).
Defined.

(** X7: on a table of ISO dates send_notifications writes a message for
    exactly the rows whose date is the day after today, and for no other
    row: not for today's events, not for later ones. *)
Theorem X7_reminders_only_for_tomorrow (today : date) (s : store)
    (u text : string) :
  check_date_fields today = true -> iso_store s = true ->
  In (u, text) (send_notifications today s) <->
  exists r d,
    In r s /\ uid r = u /\ message_text (summary r) = text
    /\ fromisoformat (start_date r) = Some d
    /\ toordinal d = toordinal today + 1.
Proof.
  intros V Hs. unfold send_notifications. split.
  - destruct (add_days today 1) as [tm|] eqn:E; [|intros []].
    destruct (add_days_inv _ _ _ V E) as [Vt Ot].
    rewrite in_map_iff. intros (r & Hr & Hin).
    unfold select_on in Hin. apply filter_In in Hin. destruct Hin as [Hin Hd].
    apply String.eqb_eq in Hd. injection Hr as <- <-.
    exists r, tm. rewrite Hd, fromisoformat_isoformat by trivial. tauto.
  - intros (r & d & Hin & <- & <- & F & O).
    destruct (is_iso_date_inv _ (iso_store_In _ _ Hs Hin)) as (d' & Vd & Ed & Fd).
    assert (d' = d) as -> by congruence.
    pose proof (toordinal_bounds d Vd).
    destruct (add_days_spec today 1 V ltac:(lia)) as (tm & E & Vt & Ot).
    rewrite E. assert (tm = d) as -> by (apply toordinal_inj; trivial; lia).
    apply (in_map (fun r => (uid r, message_text (summary r)))).
    unfold select_on. apply filter_In. split; trivial.
    rewrite Ed. apply String.eqb_refl.
Qed.

Lemma X7_reminders_only_for_tomorrow_witness :
  In ("1", message_text "Show A: 2x05")
     (send_notifications (mkdate 2024 5 9)
        [mkrow "4" "Zed: 7x01" "2024-05-09";
         mkrow "1" "Show A: 2x05" "2024-05-10"]).
Proof.
  refine (proj2 (X7_reminders_only_for_tomorrow (mkdate 2024 5 9)
                   [mkrow "4" "Zed: 7x01" "2024-05-09";
                    mkrow "1" "Show A: 2x05" "2024-05-10"]
                   "1" (message_text "Show A: 2x05") eq_refl eq_refl) _).
  exists (mkrow "1" "Show A: 2x05" "2024-05-10"), (mkdate 2024 5 10).
  split; [right; left; reflexivity|].
  repeat split.
Defined.

Lemma nodup_map_filter {A B} (f : A -> B) (p : A -> bool) : forall l,
  NoDup (map f l) -> NoDup (map f (filter p l)).
Proof.
  induction l as [|x l IH]; intros H; cbn [filter map]; [constructor|].
  cbn [map] in H. apply NoDup_cons_iff in H. destruct H as [Hx H].
  destruct (p x); cbn [map]; [|auto].
  constructor; [|auto]. intros Hin. apply Hx.
  apply in_map_iff in Hin. destruct Hin as (y & E & Hy).
  apply filter_In in Hy. rewrite <- E. apply in_map. tauto.
Qed.

(** X8: no event is reminded of twice in one run: when the uids of the
    table are distinct, as ingestion keeps them, so are the uids of the
    messages. *)
Theorem X8_one_reminder_per_event (today : date) (s : store) :
  NoDup (map uid s) -> NoDup (map fst (send_notifications today s)).
Proof.
  intros H. unfold send_notifications.
  destruct (add_days today 1) as [tm|]; [|constructor].
  rewrite map_map. cbn [fst]. unfold select_on. now apply nodup_map_filter.
Qed.

Lemma X8_one_reminder_per_event_witness :
  NoDup (map fst (send_notifications (mkdate 2024 5 9) Examples.scenario)).
Proof.
  apply (X8_one_reminder_per_event (mkdate 2024 5 9) Examples.scenario).
  repeat constructor; cbn; intuition discriminate.
Defined.

(** X9: the reminder never loses text of the summary: when it is the
    structured message, its show name and episode, joined by ": ", are the
    summary; a summary with one separator gets the structured message with
    the text before and after the separator, and a summary without
    separator gets the generic sentence around the whole summary. *)
Theorem X9_reminder_text (summary : string) :
  ((exists name episode,
       summary = (name ++ ": " ++ episode)%string
       /\ message_text summary
          = ("Reminder: " ++ name ++ nl ++ "🔴 Episode: " ++ episode
             ++ " airs tomorrow!")%string)
   \/ message_text summary
      = ("Reminder: " ++ summary ++ " airs tomorrow!")%string)
  /\ (forall name episode,
        contains ": " name = false -> contains ": " episode = false ->
        message_text (name ++ ": " ++ episode)
        = ("Reminder: " ++ name ++ nl ++ "🔴 Episode: " ++ episode
           ++ " airs tomorrow!")%string)
  /\ (contains ": " summary = false ->
      message_text summary
      = ("Reminder: " ++ summary ++ " airs tomorrow!")%string).
Proof.
  split; [|split].
  - unfold message_text.
    destruct (split ": " summary) as [|a [|b [|c l]]] eqn:E; auto.
    left. exists a, b. split; [|reflexivity]. now apply split_two.
  - intros name episode Hn He. unfold message_text.
    now rewrite split_colon_two.
  - intros H. unfold message_text. now rewrite split_absent.
Qed.

Lemma X9_reminder_text_witness :
  message_text ("Show A" ++ ": " ++ "2x05")
  = ("Reminder: Show A" ++ nl ++ "🔴 Episode: 2x05 airs tomorrow!")%string.
Proof.
  exact (proj1 (proj2 (X9_reminder_text "")) "Show A" "2x05" eq_refl eq_refl).
Defined.

(** X15: a record the grouping loop files is filed under what its row
    says: title, season and episode, joined by ": " and "x", are the
    summary, and the date is the one its date string reads as. *)
Theorem X15_filed_record_recomposes (defensive : bool) (today : date) (r : row)
    (d : date) (title sn episode : string) :
  parse_event defensive today r = Some (d, title, sn, episode) ->
  summary r = (title ++ ": " ++ sn ++ "x" ++ episode)%string
  /\ fromisoformat (start_date r) = Some d
  /\ (defensive = true -> date_ltb d today = false).
Proof.
  unfold parse_event.
  destruct (fromisoformat (start_date r)) as [d0|]; [|discriminate].
  destruct (defensive && date_ltb d0 today) eqn:G; [discriminate|].
  destruct (split ": " (summary r)) as [|t [|info [|c l]]] eqn:E1; try discriminate.
  destruct (split "x" info) as [|a [|b [|c l]]] eqn:E2; try discriminate.
  intros [= <- <- <- <-].
  apply split_two in E1. apply split_two in E2.
  split; [congruence|]. split; [reflexivity|].
  intros ->. exact G.
Qed.

Lemma X15_filed_record_recomposes_witness :
  summary (mkrow "1" "Show A: 2x05" "2024-05-10")
  = ("Show A" ++ ": " ++ "2" ++ "x" ++ "05")%string.
Proof.
  exact (proj1 (X15_filed_record_recomposes true (mkdate 2024 5 9)
                  (mkrow "1" "Show A: 2x05" "2024-05-10")
                  (mkdate 2024 5 10) "Show A" "2" "05" eq_refl)).
Defined.

Lemma parse_conventional today d u title sn episode :
  check_date_fields d = true -> date_ltb d today = false ->
  contains ": " title = false ->
  contains ": " (sn ++ "x" ++ episode) = false ->
  contains "x" sn = false -> contains "x" episode = false ->
  parse_event true today
    (mkrow u (title ++ ": " ++ sn ++ "x" ++ episode) (isoformat d))
  = Some (d, title, sn, episode).
Proof.
  intros V L Ht Hi Hs He. unfold parse_event. cbn [start_date summary].
  rewrite fromisoformat_isoformat, L by trivial. cbn [andb].
  rewrite split_colon_two by trivial.
  now rewrite split_x_two.
Qed.

(** X16: a row in the conventional shape is always filed: for a date not
    before today, a title without ": " and season and episode tokens
    without "x" (and no ": " in the two together), the loop reads back
    exactly that date, title, season and episode. *)
Theorem X16_conventional_summary_is_filed (today d : date)
    (u title sn episode : string) :
  check_date_fields d = true -> date_ltb d today = false ->
  contains ": " title = false ->
  contains ": " (sn ++ "x" ++ episode) = false ->
  contains "x" sn = false -> contains "x" episode = false ->
  parse_event true today
    (mkrow u (title ++ ": " ++ sn ++ "x" ++ episode) (isoformat d))
  = Some (d, title, sn, episode).
Proof. exact (parse_conventional today d u title sn episode). Qed.

Lemma X16_conventional_summary_is_filed_witness :
  parse_event true (mkdate 2024 5 9)
    (mkrow "1" ("Sex Education" ++ ": " ++ "2" ++ "x" ++ "05")
           (isoformat (mkdate 2024 5 10)))
  = Some (mkdate 2024 5 10, "Sex Education", "2", "05").
Proof.
  exact (X16_conventional_summary_is_filed (mkdate 2024 5 9) (mkdate 2024 5 10)
           "1" "Sex Education" "2" "05"
           eq_refl eq_refl eq_refl eq_refl eq_refl eq_refl).
Defined.

End NotifyExtras.

(** * More on the weekly view *)

Module WeeklyExtras.
Import Calendar Store PyStr Weekly Views.
Import CalendarFacts StoreFacts WeeklyFacts PyStrFacts.

(** *** The order of the headings *)

Lemma date_leb_total a b : date_leb a b = true \/ date_leb b a = true.
Proof.
  unfold date_leb. rewrite (date_cmp_antisym a b).
  destruct (date_cmp a b); cbn; auto.
Qed.

Lemma date_leb_trans a b c :
  date_leb a b = true -> date_leb b c = true -> date_leb a c = true.
Proof.
  unfold date_leb, date_cmp.
  destruct (Z.compare_spec (year a) (year b));
    destruct (Z.compare_spec (year b) (year c));
    destruct (Z.compare_spec (year a) (year c)); try lia; try discriminate;
    trivial;
    destruct (Z.compare_spec (month a) (month b));
    destruct (Z.compare_spec (month b) (month c));
    destruct (Z.compare_spec (month a) (month c)); try lia; try discriminate;
    trivial;
    destruct (Z.compare_spec (day a) (day b));
    destruct (Z.compare_spec (day b) (day c));
    destruct (Z.compare_spec (day a) (day c)); try lia; try discriminate;
    trivial.
Qed.

Lemma insert_sorted_perm d l : Permutation (insert_sorted d l) (d :: l).
Proof.
  induction l as [|x l IH]; cbn [insert_sorted]; [reflexivity|].
  destruct (date_leb d x); [reflexivity|].
  rewrite IH. apply perm_swap.
Qed.

Lemma sorted_perm l : Permutation (sorted l) l.
Proof.
  induction l as [|x l IH]; cbn [sorted fold_right]; [reflexivity|].
  fold (sorted l). rewrite insert_sorted_perm. now constructor.
Qed.

Lemma insert_sorted_sorted d l :
  StronglySorted date_le l -> StronglySorted date_le (insert_sorted d l).
Proof.
  induction 1 as [|x l Hs IH Hx]; cbn [insert_sorted].
  - repeat constructor.
  - destruct (date_leb d x) eqn:E.
    + constructor; [now constructor|].
      constructor; [exact E|].
      apply Forall_forall. intros y Hy. rewrite Forall_forall in Hx.
      apply (date_leb_trans d x y); auto. now apply Hx.
    + constructor; trivial.
      apply Forall_forall. intros y Hy.
      apply (Permutation_in _ (insert_sorted_perm d l)) in Hy.
      destruct Hy as [<-|Hy].
      * destruct (date_leb_total x d) as [H|H]; [exact H|congruence].
      * rewrite Forall_forall in Hx. now apply Hx.
Qed.

Lemma sorted_sorted l : StronglySorted date_le (sorted l).
Proof.
  induction l as [|x l IH]; cbn [sorted fold_right]; [constructor|].
  now apply insert_sorted_sorted.
Qed.

Lemma strict_of_nodup l :
  NoDup l -> StronglySorted date_le l -> StronglySorted date_lt l.
Proof.
  induction 2 as [|x l Hs IH Hx]; [constructor|].
  apply NoDup_cons_iff in H. destruct H as [Hn Hd].
  constructor; [auto|].
  apply Forall_forall. intros y Hy. rewrite Forall_forall in Hx.
  specialize (Hx y Hy). unfold date_le, date_lt, date_leb, date_ltb in *.
  destruct (date_cmp x y) eqn:E; trivial.
  apply date_cmp_eq in E. subst. contradiction.
Qed.

(** X13: the day headings come in ascending order of dates, one per key of
    the grouped view: the list the rendering walks is a rearrangement of the
    keys, ascending, and strictly ascending as the keys are distinct. *)
Theorem X13_headings_ascending (keys : list date) :
  Permutation (sorted keys) keys
  /\ StronglySorted date_le (sorted keys)
  /\ (NoDup keys -> StronglySorted date_lt (sorted keys)).
Proof.
  split; [apply sorted_perm|]. split; [apply sorted_sorted|].
  intros H. apply strict_of_nodup; [|apply sorted_sorted].
  apply (Permutation_NoDup (l := keys)); trivial.
  symmetry. apply sorted_perm.
Qed.

Lemma X13_headings_ascending_witness :
  StronglySorted date_lt
    (sorted [mkdate 2024 5 12; mkdate 2024 5 9; mkdate 2024 5 10]).
Proof.
  apply (X13_headings_ascending
           [mkdate 2024 5 12; mkdate 2024 5 9; mkdate 2024 5 10]).
  repeat constructor; cbn; intuition discriminate.
Defined.

(** *** What the grouping loop builds *)

Lemma fold_episodes df today d t : forall evs st,
  episodes_of d t (weekly_schedule (fold_left (process_event df today) evs st))
  = episodes_of d t (weekly_schedule st)
    ++ map episode_of (filter (filed_under d t) (parsed df today evs)).
Proof.
  induction evs as [|r evs IH]; intros st; cbn [fold_left parsed flat_map].
  - cbn. now rewrite app_nil_r.
  - rewrite IH. fold (parsed df today evs). unfold process_event.
    destruct (parse_event df today r) as [[[[d' t'] sn] ep]|]; cbn [app].
    + cbn [weekly_schedule filter filed_under]. rewrite episodes_of_add_day.
      destruct (date_eqb d' d && String.eqb t' t); cbn [map episode_of].
      * now rewrite <- app_assoc.
      * reflexivity.
    + reflexivity.
Qed.

(** X11: the grouping loses no episode and keeps their order: under a date
    and a title the view holds the episode tokens of exactly the filed
    records with that date and title, in the order of the query result. *)
Theorem X11_grouping_keeps_episodes (defensive : bool) (today : date)
    (events : list row) (d : date) (title : string) :
  episodes_of d title (weekly_schedule (group_events defensive today events))
  = map episode_of (filter (filed_under d title) (parsed defensive today events)).
Proof.
  unfold group_events. rewrite fold_episodes. reflexivity.
Qed.

Lemma add_show_keys t ep sh k :
  In k (map fst (add_show t ep sh)) <-> In k (map fst sh) \/ k = t.
Proof.
  induction sh as [|[k0 eps] sh IH]; cbn [add_show map fst In].
  - intuition.
  - destruct (String.eqb_spec k0 t) as [->|N]; cbn [map fst In].
    + intuition.
    + rewrite IH. intuition.
Qed.

Lemma add_show_wf t ep sh :
  NoDup (map fst sh) -> Forall (fun q => snd q <> []) sh ->
  shows_wf (add_show t ep sh).
Proof.
  intros Hn Hf. unfold shows_wf. split; [|split].
  - induction sh as [|[k0 eps] sh IH]; cbn [add_show map fst].
    + repeat constructor. intros [].
    + cbn [map fst] in Hn. apply NoDup_cons_iff in Hn. destruct Hn as [Hk Hn].
      apply Forall_inv_tail in Hf.
      destruct (String.eqb_spec k0 t) as [->|N]; cbn [map fst].
      * now constructor.
      * constructor; [|auto]. rewrite add_show_keys. intuition.
  - destruct sh as [|[k0 eps] sh]; cbn [add_show]; [discriminate|].
    destruct (String.eqb k0 t); discriminate.
  - induction sh as [|[k0 eps] sh IH]; cbn [add_show].
    + repeat constructor. discriminate.
    + apply NoDup_cons_iff in Hn. destruct Hn as [_ Hn].
      pose proof (Forall_inv Hf) as H0. apply Forall_inv_tail in Hf.
      destruct (String.eqb k0 t); constructor; auto.
      cbn [snd] in *. destruct eps; discriminate.
Qed.

Lemma add_day_keys d t ep ws k :
  In k (map fst (add_day d t ep ws)) <-> In k (map fst ws) \/ k = d.
Proof.
  induction ws as [|[k0 sh] ws IH]; cbn [add_day map fst In].
  - intuition.
  - destruct (date_eqb k0 d) eqn:E; cbn [map fst In].
    + apply date_eqb_eq in E. subst. intuition.
    + rewrite IH. intuition.
Qed.

Lemma add_day_wf d t ep ws : schedule_wf ws -> schedule_wf (add_day d t ep ws).
Proof.
  unfold schedule_wf. intros [Hn Hf]. split.
  - induction ws as [|[k0 sh] ws IH]; cbn [add_day map fst].
    + repeat constructor. intros [].
    + cbn [map fst] in Hn. apply NoDup_cons_iff in Hn. destruct Hn as [Hk Hn].
      apply Forall_inv_tail in Hf.
      destruct (date_eqb k0 d) eqn:E; cbn [map fst].
      * now constructor.
      * constructor; [|auto]. rewrite add_day_keys. intros [H| ->]; [auto|].
        now rewrite date_eqb_refl in E.
  - induction ws as [|[k0 sh] ws IH]; cbn [add_day].
    + constructor; [|constructor]. cbn [snd].
      apply (add_show_wf t ep []); constructor.
    + apply NoDup_cons_iff in Hn. destruct Hn as [_ Hn].
      pose proof (Forall_inv Hf) as H0. apply Forall_inv_tail in Hf.
      destruct (date_eqb k0 d); constructor; auto.
      cbn [snd] in *. destruct H0 as (A & _ & C). now apply add_show_wf.
Qed.

Lemma fold_wf df today : forall evs st,
  schedule_wf (weekly_schedule st) ->
  schedule_wf (weekly_schedule (fold_left (process_event df today) evs st)).
Proof.
  induction evs as [|r evs IH]; intros st H; cbn [fold_left]; trivial.
  apply IH. unfold process_event.
  destruct (parse_event df today r) as [[[[d t] sn] ep]|]; trivial.
  cbn [weekly_schedule]. now apply add_day_wf.
Qed.

(** X12: the grouped view is a proper dict of dicts: no date occurs twice,
    under a date no title occurs twice, every date has a show and every
    show an episode; so the message has one heading per date, one line per
    title under it, and no empty heading. *)
Theorem X12_grouped_view_well_formed (defensive : bool) (today : date)
    (events : list row) :
  schedule_wf (weekly_schedule (group_events defensive today events)).
Proof.
  apply fold_wf. split; constructor.
Qed.

Lemma fold_keys df today d : forall evs st,
  In d (map fst (weekly_schedule (fold_left (process_event df today) evs st))) ->
  In d (map fst (weekly_schedule st))
  \/ exists r t sn ep, In r evs /\ parse_event df today r = Some (d, t, sn, ep).
Proof.
  induction evs as [|r evs IH]; intros st H; cbn [fold_left] in H; [now left|].
  apply IH in H. destruct H as [H|(r' & t & sn & ep & Hin & P)].
  - unfold process_event in H.
    destruct (parse_event df today r) as [[[[d' t'] sn'] ep']|] eqn:P; [|now left].
    cbn [weekly_schedule] in H. apply add_day_keys in H.
    destruct H as [H| ->]; [now left|].
    right. exists r, t', sn', ep'. split; [now left|exact P].
  - right. exists r', t, sn, ep. split; [now right|exact P].
Qed.

(** X14: on a table of ISO dates the weekly view only has headings for
    dates of the week: every date of the grouped view lies between today
    and the end bound, at most six days after today. *)
Theorem X14_headings_within_week (today sunday : date) (s : store) (d : date) :
  check_date_fields today = true -> iso_store s = true ->
  week_end today = Some sunday ->
  In d (map fst (weekly_schedule
                   (group_events true today (week_events today sunday s)))) ->
  date_leb today d = true /\ date_leb d sunday = true
  /\ 0 <= toordinal d - toordinal today <= 6.
Proof.
  intros V Hs Hw Hd.
  destruct (add_days_inv _ _ _ V Hw) as [Vs Os].
  pose proof (Z.mod_pos_bound (6 - weekday today) 7 ltac:(lia)) as Bk.
  apply fold_keys in Hd. destruct Hd as [[]|(r & t & sn & ep & Hin & P)].
  unfold week_events, select_between in Hin. apply filter_In in Hin.
  destruct Hin as [Hin Hb]. apply andb_true_iff in Hb. destruct Hb as [Hlo Hhi].
  destruct (is_iso_date_inv _ (iso_store_In _ _ Hs Hin)) as (d' & Vd & Ed & Fd).
  unfold parse_event in P. rewrite Fd in P.
  destruct (true && date_ltb d' today); [discriminate|].
  destruct (split ": " (summary r)) as [|a [|b [|c l]]]; try discriminate.
  destruct (split "x" b) as [|x [|y [|z l]]]; try discriminate.
  injection P as -> _ _ _.
  rewrite Ed, leb_isoformat in Hlo, Hhi by assumption.
  split; [exact Hlo|]. split; [exact Hhi|].
  rewrite date_leb_toordinal, Z.leb_le in Hlo, Hhi by assumption. lia.
Qed.

Lemma X14_headings_within_week_witness :
  date_leb (mkdate 2024 5 9) (mkdate 2024 5 10) = true
  /\ date_leb (mkdate 2024 5 10) (mkdate 2024 5 12) = true
  /\ 0 <= toordinal (mkdate 2024 5 10) - toordinal (mkdate 2024 5 9) <= 6.
Proof.
  exact (X14_headings_within_week (mkdate 2024 5 9) (mkdate 2024 5 12)
           Examples.scenario (mkdate 2024 5 10)
           eq_refl eq_refl eq_refl (or_introl eq_refl)).
Defined.

(** *** The reply *)

Lemma weekly_reply_cases today s :
  send_weekly_schedule today s
  = match week_end today with
    | None => ERROR_REPLY
    | Some sunday =>
        match last_season true today (week_events today sunday s) with
        | Some sn =>
            render sn (weekly_schedule
                         (group_events true today (week_events today sunday s)))
        | None => NOTHING_SCHEDULED
        end
    end.
Proof.
  unfold send_weekly_schedule.
  destruct (week_end today) as [sunday|]; trivial.
  destruct (group_events_season true today (week_events today sunday s))
    as [E H].
  destruct (week_events today sunday s) as [|r evs] eqn:Ev; [reflexivity|].
  cbv zeta. rewrite E.
  destruct (last_season true today (r :: evs)) as [sn|].
  - destruct (weekly_schedule (group_events true today (r :: evs))); trivial.
    destruct H as [H _]. discriminate (H eq_refl).
  - destruct H as [_ H]. now rewrite (H eq_refl).
Qed.

Lemma render_head sn ws :
  exists rest, render sn ws = String "240"%char rest.
Proof. unfold render. cbn [append]. eauto. Qed.

Lemma last_season_none df today : forall evs acc,
  fold_left (fun acc r =>
               match parse_event df today r with
               | Some (_, _, sn, _) => Some sn
               | None => acc
               end) evs acc = None
  <-> acc = None /\ forall r, In r evs -> included df today r = false.
Proof.
  induction evs as [|r evs IH]; intros acc; cbn [fold_left In].
  - intuition.
  - rewrite IH. unfold included.
    destruct (parse_event df today r) as [[[[d t] sn] ep]|] eqn:P.
    + split; [intros [H _]; discriminate|].
      intros [_ H]. specialize (H r (or_introl eq_refl)). rewrite P in H.
      discriminate.
    + split; intros [H1 H2]; split; trivial.
      * intros r' [<-|Hr]; [now rewrite P|auto].
      * intros r' Hr. apply H2. now right.
Qed.

(** X17: when the week's end exists, the reply is the fixed "nothing
    scheduled" text exactly when the loop files none of the week's rows (no
    row in range, or none that passes the date and summary tests); in
    particular on an empty table. *)
Theorem X17_nothing_scheduled (today sunday : date) (s : store) :
  week_end today = Some sunday ->
  (send_weekly_schedule today s = NOTHING_SCHEDULED <->
   forall r, In r (week_events today sunday s) -> included true today r = false)
  /\ send_weekly_schedule today [] = NOTHING_SCHEDULED.
Proof.
  intros Hw. split.
  - rewrite weekly_reply_cases, Hw. unfold last_season.
    pose proof (last_season_none true today (week_events today sunday s) None) as L.
    destruct (fold_left _ (week_events today sunday s) None) as [sn|].
    + split.
      * destruct (render_head sn (weekly_schedule
                    (group_events true today (week_events today sunday s))))
          as [rest ->]. discriminate.
      * intros H. destruct L as [_ L]. discriminate L. now split.
    + split; trivial. intros _. now apply L.
  - rewrite weekly_reply_cases, Hw. reflexivity.
Qed.

Lemma X17_nothing_scheduled_witness :
  send_weekly_schedule (mkdate 2024 5 9)
    [mkrow "9" "Malformed Entry" "2024-05-10";
     mkrow "3" "Show C: 4x10" "2023-12-31"] = NOTHING_SCHEDULED.
Proof.
  apply (proj1 (X17_nothing_scheduled (mkdate 2024 5 9) (mkdate 2024 5 12)
                  [mkrow "9" "Malformed Entry" "2024-05-10";
                   mkrow "3" "Show C: 4x10" "2023-12-31"] eq_refl)).
  intros r [<-|[]]. reflexivity.
Defined.

(** X19: the addition of line 135 overflows exactly when today lies after
    the last Sunday of the date range, 9999-12-26; whatever the table, the
    reply is the error text for those five days and for no other day. *)
Theorem X19_week_end_overflow (today : date) (s : store) :
  check_date_fields today = true ->
  (week_end today = None <-> date_ltb (mkdate 9999 12 26) today = true)
  /\ (send_weekly_schedule today s = ERROR_REPLY <->
      date_ltb (mkdate 9999 12 26) today = true).
Proof.
  intros V. pose proof (toordinal_bounds today V) as B.
  unfold MAXORDINAL in B.
  assert (W : week_end today = None <-> date_ltb (mkdate 9999 12 26) today = true).
  { rewrite date_ltb_leb, negb_true_iff, date_leb_toordinal, Z.leb_gt
      by (trivial; reflexivity).
    change (toordinal (mkdate 9999 12 26)) with 3652054.
    unfold week_end, add_days, weekday, MAXORDINAL.
    destruct ((0 <? toordinal today + (6 - (toordinal today + 6) mod 7) mod 7)
              && (toordinal today + (6 - (toordinal today + 6) mod 7) mod 7
                  <=? 3652059)) eqn:E.
    - apply andb_true_iff in E. rewrite Z.ltb_lt, Z.leb_le in E.
      split; [discriminate|]. intros H. exfalso.
      revert E. Z.to_euclidean_division_equations. lia.
    - apply andb_false_iff in E. rewrite Z.ltb_ge, Z.leb_gt in E.
      split; trivial. intros _.
      revert E. Z.to_euclidean_division_equations. lia. }
  split; [exact W|]. rewrite <- W, weekly_reply_cases.
  destruct (week_end today) as [sunday|]; [|tauto].
  split; [|discriminate].
  destruct (last_season true today (week_events today sunday s)) as [sn|].
  - destruct (render_head sn (weekly_schedule
                (group_events true today (week_events today sunday s))))
      as [rest ->]. discriminate.
  - discriminate.
Qed.

Lemma X19_week_end_overflow_witness :
  send_weekly_schedule (mkdate 9999 12 29) Examples.scenario = ERROR_REPLY.
Proof.
  exact (proj2 (proj2 (X19_week_end_overflow (mkdate 9999 12 29)
                         Examples.scenario eq_refl)) eq_refl).
Defined.

(** *** Every filed record is shown *)

Lemma shows_on_key d ws :
  shows_on d ws <> [] -> In d (map fst ws).
Proof.
  unfold shows_on. destruct (find _ ws) as [p|] eqn:F; [|congruence].
  intros _. apply find_some in F. destruct F as [Hin E].
  apply date_eqb_eq in E. subst. now apply in_map.
Qed.

Lemma episodes_of_entry d t ws ep :
  In ep (episodes_of d t ws) ->
  In (t, episodes_of d t ws) (shows_on d ws).
Proof.
  unfold episodes_of.
  destruct (find _ (shows_on d ws)) as [[t' eps]|] eqn:F; [|intros []].
  intros _. apply find_some in F. destruct F as [Hin E].
  cbn [fst snd] in *. apply String.eqb_eq in E. now subst.
Qed.

Lemma render_contains sn ws d entry needle :
  In entry (shows_on d ws) ->
  contains needle (render_show sn entry) = true ->
  contains needle (render sn ws) = true.
Proof.
  intros Hin H. unfold render.
  do 3 apply contains_app_r.
  apply (contains_concat needle (render_day sn ws d)).
  - apply in_map. apply (Permutation_in _ (Permutation_sym (sorted_perm _))).
    apply shows_on_key. intros E. now rewrite E in Hin.
  - unfold render_day. do 4 apply contains_app_r. apply contains_app_l.
    apply (contains_concat needle (render_show sn entry)); trivial.
    now apply in_map.
Qed.

Lemma render_contains_heading sn ws d :
  In d (map fst ws) ->
  contains ("👉 " ++ strftime_A_B_d d ++ ":" ++ nl) (render sn ws) = true.
Proof.
  intros Hin. unfold render. do 3 apply contains_app_r.
  apply (contains_concat _ (render_day sn ws d)).
  - apply in_map. now apply (Permutation_in _ (Permutation_sym (sorted_perm _))).
  - unfold render_day.
    set (rest := (String.concat "" _ ++ nl)%string).
    rewrite <- (str_app_assoc ":" nl rest).
    rewrite <- (str_app_assoc (strftime_A_B_d d) (":" ++ nl) rest).
    rewrite <- (str_app_assoc "👉 " (strftime_A_B_d d ++ ":" ++ nl) rest).
    apply contains_self.
Qed.

Lemma filed_record_shown (today sunday : date) (s : store) (r : row)
    (d : date) (title sn0 episode : string) :
  week_end today = Some sunday ->
  In r (week_events today sunday s) ->
  parse_event true today r = Some (d, title, sn0, episode) ->
  let ws := weekly_schedule
              (group_events true today (week_events today sunday s)) in
  let msg := send_weekly_schedule today s in
  exists sn,
    last_season true today (week_events today sunday s) = Some sn
    /\ In episode (episodes_of d title ws)
    /\ contains ("👉 " ++ strftime_A_B_d d ++ ":" ++ nl) msg = true
    /\ contains (render_show sn (title, episodes_of d title ws)) msg = true
    /\ contains ("  • Episode " ++ lstrip0 episode ++ nl) msg = true.
Proof.
  intros Hw Hin P. cbv zeta.
  assert (He : In episode
                 (episodes_of d title
                    (weekly_schedule
                       (group_events true today (week_events today sunday s))))).
  { apply in_split in Hin. destruct Hin as (pre & post & ->).
    rewrite group_events_app. cbn [fold_left]. apply fold_process_keeps.
    unfold process_event. rewrite P. cbn [weekly_schedule].
    rewrite episodes_of_add_day, date_eqb_refl, String.eqb_refl.
    apply in_or_app. right. now left. }
  pose proof (episodes_of_entry _ _ _ _ He) as Hentry.
  rewrite weekly_reply_cases, Hw.
  destruct (last_season true today (week_events today sunday s)) as [sn|] eqn:L.
  - exists sn. split; [reflexivity|]. split; [exact He|]. split; [|split].
    + apply render_contains_heading. apply shows_on_key.
      intros E. now rewrite E in Hentry.
    + apply (render_contains sn _ d _ _ Hentry).
      apply contains_refl.
    + apply (render_contains sn _ d _ _ Hentry).
      unfold render_show. cbn [fst snd]. do 6 apply contains_app_r.
      apply (contains_concat _ ("  • Episode " ++ lstrip0 episode ++ nl)%string).
      * now apply (in_map (fun e => ("  • Episode " ++ lstrip0 e ++ nl)%string)).
      * apply contains_refl.
  - exfalso. unfold last_season in L. apply last_season_none in L.
    destruct L as [_ L]. specialize (L r Hin). unfold included in L.
    now rewrite P in L.
Qed.


(** X22: every record the loop files is shown in the message: the text has
    the heading of its date and, under its title and the season the loop
    ended with, the bullets of all the episodes filed there, its own among
    them. *)
Theorem X22_filed_record_is_shown (today sunday : date) (s : store) (r : row)
    (d : date) (title sn0 episode : string) :
  week_end today = Some sunday ->
  In r (week_events today sunday s) ->
  parse_event true today r = Some (d, title, sn0, episode) ->
  let ws := weekly_schedule
              (group_events true today (week_events today sunday s)) in
  let msg := send_weekly_schedule today s in
  exists sn,
    last_season true today (week_events today sunday s) = Some sn
    /\ In episode (episodes_of d title ws)
    /\ contains ("👉 " ++ strftime_A_B_d d ++ ":" ++ nl) msg = true
    /\ contains (render_show sn (title, episodes_of d title ws)) msg = true
    /\ contains ("  • Episode " ++ lstrip0 episode ++ nl) msg = true.
Proof.
  exact (filed_record_shown today sunday s r d title sn0 episode).
Qed.

Lemma X22_filed_record_is_shown_witness :
  contains ("  • Episode " ++ lstrip0 "06" ++ nl)
           (send_weekly_schedule (mkdate 2024 5 9) Examples.scenario) = true.
Proof.
  destruct (X22_filed_record_is_shown (mkdate 2024 5 9) (mkdate 2024 5 12)
              Examples.scenario (mkrow "2" "Show A: 2x06" "2024-05-10")
              (mkdate 2024 5 10) "Show A" "2" "06"
              eq_refl (or_intror (or_introl eq_refl)) eq_refl)
    as (sn & _ & _ & _ & _ & H).
  exact H.
Defined.

End WeeklyExtras.

(** * From the feed to the message *)

Module EndToEnd.
Import Calendar Store Sync PyStr Weekly Views.
Import CalendarFacts StoreFacts SyncExtras NotifyExtras WeeklyExtras.

(** X23: an event read from the feed for the first time, in the
    conventional shape and dated within the week, is shown by the next
    weekly message on the table the run leaves: the message has the heading
    of its date and the bullet of its episode. *)
Theorem X23_synced_event_is_shown
    (evs : list vevent) (medium : nat -> outcome) (s : store)
    (pre post : list row) (today sunday d : date)
    (u title sn episode : string) :
  let r := mkrow u (title ++ ": " ++ sn ++ "x" ++ episode) (isoformat d) in
  reached evs = pre ++ r :: post ->
  has_uid u s = false -> has_uid u pre = false ->
  medium (List.length pre) = Done ->
  check_date_fields today = true -> week_end today = Some sunday ->
  check_date_fields d = true ->
  date_leb today d = true -> date_leb d sunday = true ->
  contains ": " title = false ->
  contains ": " (sn ++ "x" ++ episode) = false ->
  contains "x" sn = false -> contains "x" episode = false ->
  let msg :=
    send_weekly_schedule today (fst (update_schedule (Parsed evs) medium s)) in
  contains ("👉 " ++ strftime_A_B_d d ++ ":" ++ nl) msg = true
  /\ contains ("  • Episode " ++ lstrip0 episode ++ nl) msg = true.
Proof.
  intros r Hr Hs Hp Hf Vt Hw Vd L1 L2 C1 C2 C3 C4. cbv zeta.
  destruct (add_days_inv _ _ _ Vt Hw) as [Vs _].
  pose proof (update_schedule_first evs medium s pre post r Hr Hs Hp Hf) as F.
  apply find_some in F. destruct F as [Hin _].
  assert (Hq : In r (week_events today sunday
                       (fst (update_schedule (Parsed evs) medium s)))).
  { unfold week_events, select_between. apply filter_In. split; trivial.
    unfold r. cbn [start_date]. rewrite !leb_isoformat by assumption.
    now rewrite L1, L2. }
  assert (P : parse_event true today r = Some (d, title, sn, episode)).
  { apply parse_conventional; trivial. now rewrite date_ltb_leb, L1. }
  destruct (filed_record_shown today sunday _ r d title sn episode Hw Hq P)
    as (sn' & _ & _ & H1 & _ & H2).
  split; assumption.
Qed.

Lemma X23_synced_event_is_shown_witness :
  let msg :=
    send_weekly_schedule (mkdate 2024 5 9)
      (fst (update_schedule (Parsed Examples.feed3) no_failure [])) in
  contains ("👉 " ++ strftime_A_B_d (mkdate 2024 5 11) ++ ":" ++ nl) msg = true
  /\ contains ("  • Episode " ++ lstrip0 "01" ++ nl) msg = true.
Proof.
  exact (X23_synced_event_is_shown Examples.feed3 no_failure []
           [mkrow "1" "Show A: 2x05" "2024-05-10";
            mkrow "2" "Show A: 2x06" "2024-05-10"] []
           (mkdate 2024 5 9) (mkdate 2024 5 12) (mkdate 2024 5 11)
           "3" "Show B" "1" "01"
           eq_refl eq_refl eq_refl eq_refl eq_refl eq_refl eq_refl eq_refl
           eq_refl eq_refl eq_refl eq_refl eq_refl).
Defined.

End EndToEnd.
